(** * Work timesheet: persistence manager (app.js) and offline cache gateway (sw.js)

    A shallow embedding of the two scripts of the repository.

    - [WorkTimesheet] (app.js): the in-memory collections, the redundant
      primary/backup snapshot in [localStorage], loading with fallback,
      storage clean-up, and the retry loop around [saveData].
    - the [fetch] listener of the service worker (sw.js): cache first, then
      network, selective population of the static bucket, navigation
      fallback.

    JavaScript values are an inductive type, numbers are binary64 floats
    (Rocq's primitive floats, which are the same IEEE 754 values that
    JavaScript uses), a string holds the UTF-8 bytes of the text,
    [localStorage] is a finite map from key strings to value strings,
    exceptions are an explicit outcome, and everything the browser decides
    (JSON codec, quota, clock, random digits) is a field of the [Host] class.
    Whether the page may reach its storage at all is part of the state: the
    browser can deny it, and then reading the [localStorage] attribute
    raises.  Timers are recorded when they are set and fire as separate
    events.  The DOM is outside the model; of [renderCalendar] and
    [updateStats], which read the collections and write to the page, the
    model keeps whether they complete, and what the view contributes (the
    month shown, the period selected) is a field of the [Page] class. *)

From Stdlib Require Import ZArith Floats.PrimFloat Floats.SpecFloat Floats.FloatOps
  Floats.FloatAxioms.
From Stdlib Require Import Strings.Ascii.
From stdpp Require Import base option list gmap strings sorting.

Local Open Scope string_scope.
Local Open Scope list_scope.
Local Set Warnings "-register-all".

(** * Part I: the model *)

(** ** JavaScript values *)

Inductive value : Type :=
| Undefined
| Null
| Bool (b : bool)
| Num (x : float)
| Str (s : string)
| Arr (items : list value)
| Obj (props : list (string * value))
| Fn (name : string).

(** Exceptions the modelled code can meet. *)
Inductive exn : Type :=
| SecurityError       (* reading the [localStorage] attribute is denied *)
| QuotaExceededError  (* [setItem] refused by the storage area *)
| SyntaxError         (* [JSON.parse] on malformed text *)
| TypeError.          (* property of null, call of a non-function, ... *)

(** [ToBoolean]. *)
Definition truthy (v : value) : bool :=
  match v with
  | Undefined | Null => false
  | Bool b => b
  | Num x => negb (PrimFloat.is_nan x || PrimFloat.is_zero x)
  | Str s => negb (String.eqb s "")
  | Arr _ | Obj _ | Fn _ => true
  end.

(** [a || b] on values. *)
Definition or_else (a b : value) : value := if truthy a then a else b.

(** [===].  Arrays, objects and functions compare by identity; the values
    compared by the program (a project's [id] and an entry's [projectId]) are
    distinct nodes whenever they are not primitives, hence [false]. *)
Definition strict_eq (a b : value) : bool :=
  match a, b with
  | Undefined, Undefined => true
  | Null, Null => true
  | Bool x, Bool y => Bool.eqb x y
  | Num x, Num y => PrimFloat.eqb x y
  | Str x, Str y => String.eqb x y
  | _, _ => false
  end.

Fixpoint assoc (k : string) (ps : list (string * value)) : option value :=
  match ps with
  | [] => None
  | (k', v) :: ps => if String.eqb k k' then Some v else assoc k ps
  end.

Fixpoint assoc_set (k : string) (v : value) (ps : list (string * value))
  : list (string * value) :=
  match ps with
  | [] => [(k, v)]
  | (k', v') :: ps =>
      if String.eqb k k' then (k, v) :: ps else (k', v') :: assoc_set k v ps
  end.

(** [v.name], for the property names the program reads ([projects],
    [entries], [id], [projectId]).  None of them is inherited by objects,
    strings, numbers, booleans or functions; arrays inherit [entries] from
    [Array.prototype]. *)
Definition get_prop (v : value) (name : string) : exn + value :=
  match v with
  | Undefined | Null => inl TypeError
  | Obj ps => inr (default Undefined (assoc name ps))
  | Arr _ => inr (if String.eqb name "entries"
                  then Fn "Array.prototype.entries" else Undefined)
  | _ => inr Undefined
  end.

(** ** Numbers and strings *)

(** The Number value of a mathematical integer (round to nearest, ties to
    even). *)
Definition number_of_Z (z : Z) : float :=
  SF2Prim (binary_normalize 53 1024 z 0 false).

Definition ascii_code (c : ascii) : Z := Z.of_N (N_of_ascii c).

(** The digit value of a character in radix 36, if it is one. *)
Definition digit_value (c : ascii) : option Z :=
  let n := ascii_code c in
  if (48 <=? n)%Z && (n <=? 57)%Z then Some (n - 48)%Z
  else if (97 <=? n)%Z && (n <=? 122)%Z then Some (n - 87)%Z
  else if (65 <=? n)%Z && (n <=? 90)%Z then Some (n - 55)%Z
  else None.

Definition digit_in (radix : Z) (c : ascii) : option Z :=
  match digit_value c with
  | Some d => if (d <? radix)%Z then Some d else None
  | None => None
  end.

(** The white space and line terminators that [parseInt] skips, by their
    UTF-8 bytes: U+0009 to U+000D and U+0020; U+00A0; U+1680, U+2000 to
    U+200A, U+2028, U+2029, U+202F, U+205F, U+3000 and U+FEFF. *)
Definition is_space (c : ascii) : bool :=
  let n := ascii_code c in
  ((9 <=? n)%Z && (n <=? 13)%Z) || (n =? 32)%Z.

Definition is_space2 (a b : ascii) : bool :=
  (ascii_code a =? 194)%Z && (ascii_code b =? 160)%Z.

Definition is_space3 (a b c : ascii) : bool :=
  let x := ascii_code a in
  let y := ascii_code b in
  let z := ascii_code c in
  ((x =? 225) && (y =? 154) && (z =? 128))%Z
  || ((x =? 226) && (y =? 128)
      && (((128 <=? z) && (z <=? 138)) || (z =? 168) || (z =? 169)
          || (z =? 175)))%Z
  || ((x =? 226) && (y =? 129) && (z =? 159))%Z
  || ((x =? 227) && (y =? 128) && (z =? 128))%Z
  || ((x =? 239) && (y =? 187) && (z =? 191))%Z.

Fixpoint trim_start (s : string) : string :=
  match s with
  | String a r =>
      if is_space a then trim_start r
      else if (ascii_code a <? 128)%Z then s
      else
        match r with
        | String b r2 =>
            if is_space2 a b then trim_start r2
            else
              match r2 with
              | String c r3 => if is_space3 a b c then trim_start r3 else s
              | EmptyString => s
              end
        | EmptyString => s
        end
  | EmptyString => s
  end.

(** The longest prefix of digits of the radix, most significant first, read
    as an integer; [None] when the prefix is empty. *)
Fixpoint read_digits (radix : Z) (s : string) (acc : option Z) : option Z :=
  match s with
  | String c r =>
      match digit_in radix c with
      | Some d => read_digits radix r (Some (default 0 acc * radix + d))%Z
      | None => acc
      end
  | EmptyString => acc
  end.

Definition strip_hex (s : string) : option string :=
  match s with
  | String "0" (String "x" r) | String "0" (String "X" r) => Some r
  | _ => None
  end.

(** [parseInt(s)] with no radix argument: white space, a sign, [0x] for
    radix 16, then the longest run of digits; [NaN] when there is none. *)
Definition parseInt (s : string) : float :=
  let s := trim_start s in
  let '(neg, s) :=
    match s with
    | String "-" r => (true, r)
    | String "+" r => (false, r)
    | _ => (false, s)
    end in
  let '(radix, s) :=
    match strip_hex s with
    | Some r => (16, r)
    | None => (10, s)
    end%Z in
  match read_digits radix s None with
  | None => PrimFloat.nan
  | Some 0%Z => if neg then PrimFloat.neg_zero else PrimFloat.zero
  | Some z => number_of_Z (if neg then - z else z)
  end.

Definition digit_char (d : Z) : ascii :=
  ascii_of_N (Z.to_N (if (d <? 10)%Z then 48 + d else 87 + d)).

(** Base 36 digits of a non-negative integer, most significant first. *)
Fixpoint base36_digits (fuel : nat) (n : Z) (acc : string) : string :=
  match fuel with
  | O => acc
  | S fuel =>
      if (n <? 36)%Z then String (digit_char n) acc
      else base36_digits fuel (n / 36)%Z (String (digit_char (n mod 36)) acc)
  end.

(** [n.toString(36)] for an integer-valued Number. *)
Definition toString36 (n : Z) : string :=
  let a := Z.abs n in
  let ds := base36_digits (S (Z.to_nat (Z.log2 a))) a "" in
  if (n <? 0)%Z then String "-" ds else ds.

(** The UTF-16 code units of a text, from its UTF-8 bytes (a supplementary
    character gives two surrogates; three bytes that encode a surrogate
    stand for a lone one).  Bytes that are not UTF-8 encode no text; they
    give U+FFFD. *)
Definition continuation (n : N) : bool := ((128 <=? n) && (n <? 192))%N.

Fixpoint code_units (s : string) : list N :=
  match s with
  | EmptyString => []
  | String a r =>
      let x := N_of_ascii a in
      if (x <? 128)%N then x :: code_units r
      else
        match r with
        | String b r2 =>
            let y := N_of_ascii b in
            if ((194 <=? x) && (x <? 224))%N && continuation y
            then ((x - 192) * 64 + (y - 128))%N :: code_units r2
            else
              match r2 with
              | String c r3 =>
                  let z := N_of_ascii c in
                  let cp := ((x - 224) * 4096 + (y - 128) * 64 + (z - 128))%N in
                  if ((224 <=? x) && (x <? 240))%N && continuation y
                     && continuation z && (2048 <=? cp)%N
                  then cp :: code_units r3
                  else
                    match r3 with
                    | String d r4 =>
                        let w := N_of_ascii d in
                        let cp :=
                          ((x - 240) * 262144 + (y - 128) * 4096
                           + (z - 128) * 64 + (w - 128))%N in
                        if (240 <=? x)%N && continuation y && continuation z
                           && continuation w
                           && ((65536 <=? cp) && (cp <? 1114112))%N
                        then (55296 + (cp - 65536) / 1024)%N
                             :: (56320 + (cp - 65536) mod 1024)%N
                             :: code_units r4
                        else 65533%N :: code_units r
                    | EmptyString => 65533%N :: code_units r
                    end
              | EmptyString => 65533%N :: code_units r
              end
        | EmptyString => [65533%N]
        end
  end.

Fixpoint units_compare (u v : list N) : comparison :=
  match u, v with
  | [], [] => Eq
  | [], _ :: _ => Lt
  | _ :: _, [] => Gt
  | x :: u, y :: v =>
      match (x ?= y)%N with
      | Eq => units_compare u v
      | c => c
      end
  end.

(** How JavaScript orders two strings ([<] on strings, [sort] without a
    comparator): code unit by code unit.  Two texts with the same code
    units are the same text; between byte strings that are no text the
    bytes decide. *)
Definition js_compare (a b : string) : comparison :=
  match units_compare (code_units a) (code_units b) with
  | Eq => String.compare a b
  | c => c
  end.

(** [s.startsWith(p)]. *)
Definition startsWith (s p : string) : bool := String.prefix p s.

(** [s] ends with [suffix]. *)
Definition endsWith (s suffix : string) : bool :=
  String.prefix (String.rev suffix) (String.rev s).

(** ** The host: what the browser decides *)

Class Host : Type := {
  (** [JSON.parse]; [None] is a [SyntaxError]. *)
  JSON_parse : string -> option value;
  (** [JSON.stringify] of an object. *)
  JSON_stringify : value -> string;
  (** Whether the storage area takes [key := text] on top of its present
      content (quota). *)
  storage_accepts : gmap string string -> string -> string -> bool;
  (** [Date.now()], [new Date().toISOString()] and the digits of
      [Math.random().toString(36).substr(2)] at the n-th observation. *)
  Date_now : nat -> Z;
  Date_toISOString : nat -> string;
  Math_random_digits : nat -> string;
  parseFloat : string -> float;
  (** The empty text is not JSON. *)
  JSON_parse_empty : JSON_parse "" = None
}.

(** ** State *)

Inductive task : Type := DeferredSave | AttemptSave | RemoveMessage.

Inductive timer_status : Type := Pending | Fired | Cleared.

#[export] Instance task_eq_dec : EqDecision task.
Proof. solve_decision. Defined.

#[export] Instance timer_status_eq_dec : EqDecision timer_status.
Proof. solve_decision. Defined.

(** One [setTimeout] call; its handle is its position in [timeouts]. *)
Record timer : Type := Timer {
  delay : nat;
  callback : task;
  status : timer_status
}.

Record state : Type := State {
  (* fields of the WorkTimesheet instance *)
  projects : value;
  entries : value;
  isOnline : bool;
  saveTimeout : option nat;
  retryCount : nat;
  maxRetries : nat;
  (* the window *)
  storage_allowed : bool;
  localStorage : gmap string string;
  timeouts : list timer;
  messages : list (string * string);
  ticks : nat
}.

Definition set_projects (v : value) (s : state) : state :=
  State v (entries s) (isOnline s) (saveTimeout s) (retryCount s)
    (maxRetries s) (storage_allowed s) (localStorage s) (timeouts s)
    (messages s) (ticks s).

Definition set_entries (v : value) (s : state) : state :=
  State (projects s) v (isOnline s) (saveTimeout s) (retryCount s)
    (maxRetries s) (storage_allowed s) (localStorage s) (timeouts s)
    (messages s) (ticks s).

Definition set_saveTimeout (h : option nat) (s : state) : state :=
  State (projects s) (entries s) (isOnline s) h (retryCount s)
    (maxRetries s) (storage_allowed s) (localStorage s) (timeouts s)
    (messages s) (ticks s).

Definition set_retryCount (n : nat) (s : state) : state :=
  State (projects s) (entries s) (isOnline s) (saveTimeout s) n
    (maxRetries s) (storage_allowed s) (localStorage s) (timeouts s)
    (messages s) (ticks s).

Definition set_storage_allowed (b : bool) (s : state) : state :=
  State (projects s) (entries s) (isOnline s) (saveTimeout s) (retryCount s)
    (maxRetries s) b (localStorage s) (timeouts s) (messages s) (ticks s).

Definition set_localStorage (m : gmap string string) (s : state) : state :=
  State (projects s) (entries s) (isOnline s) (saveTimeout s) (retryCount s)
    (maxRetries s) (storage_allowed s) m (timeouts s) (messages s) (ticks s).

Definition set_timeouts (l : list timer) (s : state) : state :=
  State (projects s) (entries s) (isOnline s) (saveTimeout s) (retryCount s)
    (maxRetries s) (storage_allowed s) (localStorage s) l (messages s)
    (ticks s).

Definition set_messages (l : list (string * string)) (s : state) : state :=
  State (projects s) (entries s) (isOnline s) (saveTimeout s) (retryCount s)
    (maxRetries s) (storage_allowed s) (localStorage s) (timeouts s) l
    (ticks s).

Definition set_ticks (n : nat) (s : state) : state :=
  State (projects s) (entries s) (isOnline s) (saveTimeout s) (retryCount s)
    (maxRetries s) (storage_allowed s) (localStorage s) (timeouts s)
    (messages s) n.

(** ** Computations that may throw *)

Inductive outcome (A : Type) : Type :=
| Return (a : A) (s : state)
| Throw (e : exn) (s : state).

Arguments Return {A} a s.

Arguments Throw {A} e s.

Definition M (A : Type) : Type := state -> outcome A.

Definition ret {A} (a : A) : M A := fun s => Return a s.

Definition throw {A} (e : exn) : M A := fun s => Throw e s.

Definition bind {A B} (m : M A) (k : A -> M B) : M B :=
  fun s => match m s with
           | Return a s' => k a s'
           | Throw e s' => Throw e s'
           end.

(** [try { m } catch (e) { h e }]. *)
Definition try_catch {A} (m : M A) (h : exn -> M A) : M A :=
  fun s => match m s with
           | Return a s' => Return a s'
           | Throw e s' => h e s'
           end.

Definition gets {A} (f : state -> A) : M A := fun s => Return (f s) s.

Definition modify (f : state -> state) : M unit := fun s => Return tt (f s).

Definition lift {A} (r : exn + A) : M A :=
  match r with inl e => throw e | inr a => ret a end.

Declare Scope js_scope.

Delimit Scope js_scope with js.

Notation "'let*' x ':=' m 'in' k" := (bind m (fun x => k))
  (at level 10, x name, m at level 100, k at level 200) : js_scope.

Notation "m >> k" := (bind m (fun _ => k))
  (at level 90, right associativity) : js_scope.

Local Open Scope js_scope.

Definition final_state {A} (o : outcome A) : state :=
  match o with Return _ s => s | Throw _ s => s end.

Definition returns {A} (o : outcome A) : bool :=
  match o with Return _ _ => true | Throw _ _ => false end.

Definition throws {A} (o : outcome A) : bool := negb (returns o).

Fixpoint forEach {A} (f : A -> M unit) (l : list A) : M unit :=
  match l with
  | [] => ret tt
  | x :: l => f x >> forEach f l
  end.

(** ** Timers *)

(** [setTimeout(cb, ms)]: a new pending timer; its handle is returned. *)
Definition setTimeout (cb : task) (ms : nat) : M nat :=
  fun s => Return (length (timeouts s))
                  (set_timeouts (timeouts s ++ [Timer ms cb Pending]) s).

Definition cancel (t : timer) : timer :=
  match status t with
  | Pending => Timer (delay t) (callback t) Cleared
  | _ => t
  end.

(** [clearTimeout(h)]; [clearTimeout(null)] does nothing. *)
Definition clearTimeout (h : option nat) : M unit :=
  match h with
  | None => ret tt
  | Some i => modify (fun s => set_timeouts (alter cancel i (timeouts s)) s)
  end.

(** The delays of the retry timers ([setTimeout(() => this.attemptSave(), _)])
    created so far, oldest first, and the handles of those still pending. *)
Definition retry_delays (s : state) : list nat :=
  delay <$> filter (fun t => callback t = AttemptSave) (timeouts s).

Definition is_pending_retry (t : timer) : bool :=
  match callback t, status t with
  | AttemptSave, Pending => true
  | _, _ => false
  end.

Fixpoint find_index {A} (p : A -> bool) (l : list A) (i : nat) : option nat :=
  match l with
  | [] => None
  | x :: l => if p x then Some i else find_index p l (S i)
  end.

Definition pending_retry (s : state) : option nat :=
  find_index is_pending_retry (timeouts s) 0.

(** ** The persistence manager (app.js) *)

Definition PRIMARY : string := "workTimesheet_data".

Definition BACKUP : string := "workTimesheet_backup".

Definition PREFIX : string := "workTimesheet_".

Definition SAVE_FAILED : string := "Ошибка сохранения данных".

Section WorkTimesheet.
Context {host : Host}.

(** Reading the [localStorage] attribute of the window: a [SecurityError]
    when the document is denied access to storage. *)
Definition the_localStorage : M (gmap string string) :=
  fun s => if storage_allowed s then Return (localStorage s) s
           else Throw SecurityError s.

(** [localStorage.getItem(k)]; [None] is [null]. *)
Definition getItem (k : string) : M (option string) :=
  let* m := the_localStorage in ret (m !! k).

(** [localStorage.setItem(k, v)]. *)
Definition setItem (k v : string) : M unit :=
  let* m := the_localStorage in
  if storage_accepts m k v then modify (set_localStorage (<[k := v]> m))
  else throw QuotaExceededError.

(** [localStorage.removeItem(k)]. *)
Definition removeItem (k : string) : M unit :=
  let* m := the_localStorage in modify (set_localStorage (delete k m)).

(** [Object.keys(localStorage)], in the order the browser lists them. *)
Definition Object_keys_localStorage : M (list string) :=
  let* m := the_localStorage in ret (map_to_list m).*1.

Definition parse (text : string) : M value :=
  match JSON_parse text with
  | Some v => ret v
  | None => throw SyntaxError
  end.

(** The order of [Array.prototype.sort] without a comparator on strings:
    code unit by code unit. *)
Definition str_le (a b : string) : Prop := js_compare a b <> Gt.

#[export] Instance str_le_dec a b : Decision (str_le a b).
Proof. unfold str_le. apply _. Defined.

(** [keys.sort()]. *)
Definition sort (keys : list string) : list string := merge_sort str_le keys.

(** [cleanupStorage()]. *)
Definition cleanupStorage : M unit :=
  let* all := Object_keys_localStorage in
  let keys := filter (fun key => startsWith key PREFIX = true) all in
  if decide (10 < length keys) then forEach removeItem (take 5 (sort keys))
  else ret tt.

(** The [try] block of [saveToLocalStorage]. *)
Definition write_both (data : value) : M unit :=
  setItem PRIMARY (JSON_stringify data) >>
  setItem BACKUP (JSON_stringify data).

(** [saveToLocalStorage(data)]. *)
Definition saveToLocalStorage (data : value) : M unit :=
  try_catch (write_both data) (fun _ => cleanupStorage).

(** [new Date().toISOString()]. *)
Definition now_iso : M string :=
  fun s => Return (Date_toISOString (ticks s)) (set_ticks (S (ticks s)) s).

(** The object literal built by [saveData]. *)
Definition snapshot (s : state) (lastSaved : string) : value :=
  Obj [("projects", projects s); ("entries", entries s);
       ("lastSaved", Str lastSaved)].

(** [saveData()]. *)
Definition saveData : M unit :=
  let* t := now_iso in
  let* data := gets (fun s => snapshot s t) in
  saveToLocalStorage data >>
  (let* h := gets saveTimeout in clearTimeout h) >>
  let* h := setTimeout DeferredSave 500 in
  modify (set_saveTimeout (Some h)).

(** [loadInitialData()]. *)
Definition default_projects : value :=
  Arr [Obj [("id", Num 1); ("name", Str "Разработка"); ("color", Str "#3b82f6")];
       Obj [("id", Num 2); ("name", Str "Тестирование"); ("color", Str "#ef4444")];
       Obj [("id", Num 3); ("name", Str "Дизайн"); ("color", Str "#10b981")];
       Obj [("id", Num 4); ("name", Str "Встречи"); ("color", Str "#f59e0b")]].

Definition loadInitialData : M unit :=
  modify (set_projects default_projects) >> modify (set_entries (Arr [])).

(** [generateId()]. *)
Definition make_id (now : Z) (digits : string) : string :=
  toString36 now +:+ digits.

Definition generateId : M string :=
  fun s => Return (make_id (Date_now (ticks s)) (Math_random_digits (ticks s)))
                  (set_ticks (S (ticks s)) s).

(** [o.name = x] in strict code (a class body).  An own property put on an
    array is not represented. *)
Definition set_prop (o : value) (name : string) (x : value) : exn + value :=
  match o with
  | Obj ps => inr (Obj (assoc_set name x ps))
  | Arr _ | Fn _ => inr o
  | _ => inl TypeError
  end.

(** The callback of [migrateOldData]. *)
Definition migrate_entry (entry : value) : M value :=
  let* id := lift (get_prop entry "id") in
  if truthy id then ret entry
  else let* fresh := generateId in lift (set_prop entry "id" (Str fresh)).

(** The callback mutates the entries in place, one after the other; the
    elements already visited keep their new [id] if a later one throws. *)
Fixpoint migrate_loop (visited rest : list value) : M unit :=
  match rest with
  | [] => ret tt
  | entry :: rest =>
      let* entry' := migrate_entry entry in
      modify (set_entries (Arr (visited ++ entry' :: rest))) >>
      migrate_loop (visited ++ [entry']) rest
  end.

(** [migrateOldData()]. *)
Definition migrateOldData : M unit :=
  let* es := gets entries in
  match es with
  | Arr items => migrate_loop [] items
  | _ => throw TypeError
  end.

(** [this.projects = data.projects || []; this.entries = data.entries || []]. *)
Definition adopt (data : value) : M unit :=
  let* p := lift (get_prop data "projects") in
  modify (set_projects (or_else p (Arr []))) >>
  let* e := lift (get_prop data "entries") in
  modify (set_entries (or_else e (Arr []))).

(** What [if (text)] lets through. *)
Definition nonempty (o : option string) : option string :=
  match o with
  | Some t => if String.eqb t "" then None else Some t
  | None => None
  end.

(** [loadFromBackup()]. *)
Definition loadFromBackup : M unit :=
  try_catch
    (let* backup := getItem BACKUP in
     match nonempty backup with
     | Some text => let* data := parse text in adopt data
     | None => loadInitialData
     end)
    (fun _ => loadInitialData).

(** [loadData()].  The [try] block yields [Some data]; its handler calls
    [loadFromBackup] and returns from the method ([None]). *)
Definition loadData : M unit :=
  let* r :=
    try_catch
      (let* mainData := getItem PRIMARY in
       match nonempty mainData with
       | Some text => let* data := parse text in ret (Some data)
       | None =>
           let* backupData := getItem BACKUP in
           match nonempty backupData with
           | Some text =>
               let* data := parse text in
               setItem PRIMARY text >> ret (Some data)
           | None => ret (Some Null)
           end
       end)
      (fun _ => loadFromBackup >> ret None) in
  match r with
  | None => ret tt
  | Some data =>
      if truthy data then adopt data >> migrateOldData else loadInitialData
  end.

(** [showMessage(text, type)]: the notification and the timer that removes
    it. *)
Definition showMessage (text type : string) : M unit :=
  modify (fun s => set_messages (messages s ++ [(text, type)]) s) >>
  let* _ := setTimeout RemoveMessage 3000 in ret tt.

(** [attemptSave()]. *)
Definition attemptSave : M unit :=
  try_catch
    (saveData >> modify (set_retryCount 0))
    (fun _ =>
       let* n := gets retryCount in
       let* max := gets maxRetries in
       if decide (n < max) then
         modify (set_retryCount (S n)) >>
         let* _ := setTimeout AttemptSave (1000 * S n) in ret tt
       else showMessage SAVE_FAILED "error").

(** [saveWithRetry()]. *)
Definition saveWithRetry : M unit :=
  modify (set_retryCount 0) >> attemptSave.

(** [this.projects.find(p => p.id === projectId)]. *)
Fixpoint find_project (ps : list value) (projectId : value) : exn + value :=
  match ps with
  | [] => inr Undefined
  | p :: ps =>
      match get_prop p "id" with
      | inl e => inl e
      | inr id => if strict_eq id projectId then inr p
                  else find_project ps projectId
      end
  end.

(** The value a form control holds for [option.value = project.id] when the
    id is a string. *)
Definition option_value (id : string) : string := id.

(** ** The event loop: a timer fires *)





End WorkTimesheet.


(** ** The states the operations lead to *)

Definition remove_keys (l : list string) (m : gmap string string)
  : gmap string string :=
  foldl (fun m k => delete k m) m l.

(** The keys of the application's name space, as [cleanupStorage] lists
    them. *)
Definition namespaced (m : gmap string string) : list string :=
  filter (fun key => startsWith key PREFIX = true) (map_to_list m).*1.

Section Outcomes.
Context {host : Host}.

(** [cleanupStorage] as a function of the stored map. *)
Definition cleaned (m : gmap string string) : gmap string string :=
  if decide (10 < length (namespaced m))
  then remove_keys (take 5 (sort (namespaced m))) m
  else m.

(** The store [saveToLocalStorage] leaves when storage can be reached. *)
Definition saved_store (data : value) (m : gmap string string)
  : gmap string string :=
  let text := JSON_stringify data in
  if storage_accepts m PRIMARY text then
    let m1 := <[PRIMARY := text]> m in
    if storage_accepts m1 BACKUP text then <[BACKUP := text]> m1
    else cleaned m1
  else cleaned m.

(** The timers after [clearTimeout(this.saveTimeout)]. *)
Definition cleared_timeouts (s : state) : list timer :=
  match saveTimeout s with
  | Some i => alter cancel i (timeouts s)
  | None => timeouts s
  end.

(** The state after a [saveData] that returns. *)
Definition after_save (s : state) : state :=
  {| projects := projects s; entries := entries s; isOnline := isOnline s;
     saveTimeout := Some (length (cleared_timeouts s));
     retryCount := retryCount s; maxRetries := maxRetries s;
     storage_allowed := storage_allowed s;
     localStorage :=
       saved_store (snapshot s (Date_toISOString (ticks s))) (localStorage s);
     timeouts := cleared_timeouts s ++ [Timer 500 DeferredSave Pending];
     messages := messages s; ticks := S (ticks s) |}.

(** The state after the handler of [attemptSave] schedules a retry. *)
Definition rescheduled (s : state) : state :=
  set_timeouts
    (timeouts s ++ [Timer (1000 * S (retryCount s)) AttemptSave Pending])
    (set_retryCount (S (retryCount s)) (set_ticks (S (ticks s)) s)).

(** The state after the handler of [attemptSave] gives up. *)
Definition gave_up (s : state) : state :=
  set_timeouts (timeouts s ++ [Timer 3000 RemoveMessage Pending])
    (set_messages (messages s ++ [(SAVE_FAILED, "error")])
       (set_ticks (S (ticks s)) s)).

End Outcomes.

(** No retry timer is waiting. *)
Definition quiet (s : state) : Prop := pending_retry s = None.


(** The state with the built-in defaults. *)
Definition seeded (s : state) : state :=
  set_entries (Arr []) (set_projects default_projects s).

(** The state after [adopt data], for a [data] that has properties. *)
Definition adopted (data : value) (s : state) : state :=
  match get_prop data "projects", get_prop data "entries" with
  | inr p, inr e =>
      set_entries (or_else e (Arr [])) (set_projects (or_else p (Arr [])) s)
  | _, _ => s
  end.

Definition nullish (v : value) : bool :=
  match v with Undefined | Null => true | _ => false end.

Definition is_object (v : value) : Prop :=
  match v with Obj _ => True | _ => False end.

(** What [migrateOldData] makes of one entry object: it is kept when it has a
    truthy [id], else it gets a generated one. *)
Definition migrated (entry entry' : value) : Prop :=
  exists fields,
    entry = Obj fields /\
    if truthy (default Undefined (assoc "id" fields)) then entry' = entry
    else exists fresh, entry' = Obj (assoc_set "id" (Str fresh) fields).

(** The lookup of [renderCalendar] for one entry. *)
Definition project_of (s : state) (entry : value) : exn + value :=
  match projects s, get_prop entry "projectId" with
  | Arr ps, inr projectId => find_project ps projectId
  | _, _ => inl TypeError
  end.

Definition last_entry (s : state) : option value :=
  match entries s with
  | Arr items => last items
  | _ => None
  end.

(** The [projectId] of the entry added last, and the project the calendar
    shows for it. *)
Definition last_projectId (s : state) : option value :=
  last_entry s ≫= fun e =>
    match get_prop e "projectId" with inr v => Some v | inl _ => None end.

Definition last_rendered (s : state) : option value :=
  last_entry s ≫= fun e =>
    match project_of s e with inr p => Some p | inl _ => None end.

(** ** The rest of the persistence manager *)

Definition set_isOnline (b : bool) (s : state) : state :=
  State (projects s) (entries s) b (saveTimeout s) (retryCount s)
    (maxRetries s) (storage_allowed s) (localStorage s) (timeouts s)
    (messages s) (ticks s).

(** Sequencing of results that may be an exception. *)
Definition and_then {A B} (r : exn + A) (k : A -> exn + B) : exn + B :=
  match r with
  | inl e => inl e
  | inr a => k a
  end.

(** [items.filter(entry => entry.id !== entryId)]. *)
Fixpoint without_id (entryId : string) (items : list value)
  : exn + list value :=
  match items with
  | [] => inr []
  | entry :: items =>
      and_then (get_prop entry "id") (fun id =>
      and_then (without_id entryId items) (fun kept =>
      inr (if strict_eq id (Str entryId) then kept else entry :: kept)))
  end.

(** Decimal digits of a non-negative integer, most significant first. *)
Fixpoint decimal_digits (fuel : nat) (n : Z) (acc : string) : string :=
  match fuel with
  | O => acc
  | S fuel =>
      if (n <? 10)%Z then String (digit_char n) acc
      else decimal_digits fuel (n / 10)%Z (String (digit_char (n mod 10)) acc)
  end.

(** The text of an integer-valued Number below 10^21 in absolute value, as
    [option.value = project.id] makes it for a numeric id. *)
Definition integer_toString (z : Z) : string :=
  let a := Z.abs z in
  let ds := decimal_digits (S (Z.to_nat (Z.log2 a))) a "" in
  if (z <? 0)%Z then String "-" ds else ds.

(** Whether the [id] of an entry is strictly equal to the string [entryId]. *)
Definition id_is (entryId : string) (entry : value) : bool :=
  match get_prop entry "id" with
  | inr id => strict_eq id (Str entryId)
  | inl _ => false
  end.

(** Whether the [date] of an entry is strictly equal to the string [date]. *)
Definition date_is (date : string) (entry : value) : bool :=
  match get_prop entry "date" with
  | inr d => strict_eq d (Str date)
  | inl _ => false
  end.


(** [items.filter(entry => entry.date === date)]. *)
Fixpoint on_date (date : string) (items : list value) : exn + list value :=
  match items with
  | [] => inr []
  | entry :: items =>
      and_then (get_prop entry "date") (fun d =>
      and_then (on_date date items) (fun found =>
      inr (if strict_eq d (Str date) then entry :: found else found)))
  end.

(** The entries of one day, as [renderCalendar] and [showDayModal] select
    them. *)
Definition day_entries (s : state) (date : string) : exn + list value :=
  match entries s with
  | Arr items => on_date date items
  | _ => inl TypeError
  end.



(** The rows [showDayModal] builds: the project's colour and name, the
    entry's hours and id, with no test of the project that was found. *)
Fixpoint modal_rows (s : state) (dayEntries : list value)
  : exn + list (value * value * value * value) :=
  match dayEntries with
  | [] => inr []
  | entry :: rest =>
      and_then (project_of s entry) (fun project =>
      and_then (get_prop project "color") (fun color =>
      and_then (get_prop project "name") (fun name =>
      and_then (get_prop entry "hours") (fun hours =>
      and_then (get_prop entry "id") (fun id =>
      and_then (modal_rows s rest) (fun rows =>
      inr ((color, name, hours, id) :: rows)))))))
  end.

Definition modal_list (s : state) (date : string)
  : exn + list (value * value * value * value) :=
  and_then (day_entries s date) (modal_rows s).

(** The options [showDayModal] puts in the project select: the [id] and the
    [name] of every project. *)
Fixpoint option_rows (ps : list value) : exn + list (value * value) :=
  match ps with
  | [] => inr []
  | project :: ps =>
      and_then (get_prop project "id") (fun id =>
      and_then (get_prop project "name") (fun name =>
      and_then (option_rows ps) (fun rows => inr ((id, name) :: rows))))
  end.

Definition select_options (s : state) : exn + list (value * value) :=
  match projects s with
  | Arr ps => option_rows ps
  | _ => inl TypeError
  end.

(** The view of the month: [currentMonth] (0 to 11) and [currentYear]. *)
Record calendar : Type := Calendar {
  currentMonth : Z;
  currentYear : Z
}.

(** [changeMonth(direction)]. *)
Definition changeMonth (direction : Z) (c : calendar) : calendar :=
  let month := (currentMonth c + direction)%Z in
  if (month <? 0)%Z then Calendar 11 (currentYear c - 1)
  else if (11 <? month)%Z then Calendar 0 (currentYear c + 1)
  else Calendar month (currentYear c).

(** The months since year 0 that a view stands for. *)
Definition month_index (c : calendar) : Z :=
  (12 * currentYear c + currentMonth c)%Z.

(** The handles of the pending timers of the deferred save. *)
Definition is_pending_deferred (t : timer) : bool :=
  match callback t, status t with
  | DeferredSave, Pending => true
  | _, _ => false
  end.

Fixpoint indices_from {A} (p : A -> bool) (l : list A) (i : nat) : list nat :=
  match l with
  | [] => []
  | x :: l => if p x then i :: indices_from p l (S i) else indices_from p l (S i)
  end.

Definition pending_deferred (s : state) : list nat :=
  indices_from is_pending_deferred (timeouts s) 0.

(** Every pending timer of the deferred save is the one [saveTimeout]
    holds. *)
Definition debounced (s : state) : Prop :=
  Forall (fun i => saveTimeout s = Some i) (pending_deferred s).

(** Strictly below, in the order of [sort]. *)
Definition str_lt (a b : string) : Prop := js_compare a b = Lt.

#[export] Instance str_lt_dec a b : Decision (str_lt a b).
Proof. unfold str_lt. apply _. Defined.

(** How many keys of the application's name space sort strictly below
    [key]. *)
Definition rank (key : string) (m : gmap string string) : nat :=
  length (filter (fun k => str_lt k key) (namespaced m)).

(** An entry object that has a truthy [id]. *)
Definition has_id (entry : value) : Prop :=
  exists fields,
    entry = Obj fields /\ truthy (default Undefined (assoc "id" fields)) = true.

(** ** Rendering

    [renderCalendar] and [updateStats] rebuild a part of the page from the
    collections and leave the state as it is.  The model keeps of them
    whether they complete.  They raise a [TypeError] when they read a
    property of [null] or [undefined], call a method that a value does not
    have, or convert to a string or to a number an object that cannot be
    converted.  The page has the elements that the script looks up by id.
    The view is the page's: *)

Class Page : Type := {
  (** The [dateString]s of the days of the month shown, first to last:
      [new Date(currentYear, currentMonth, day).toISOString().split('T')[0]],
      in the time zone of the browser (the month is one whose days [Date]
      can represent). *)
  month_dates : state -> list string;
  (** [new Date(date) >= startDate], for the period selected in
      [statsPeriod] and the clock of the moment. *)
  in_period : state -> value -> bool;
  (** [String(x)] for a Number and for a function. *)
  Number_toString : float -> string;
  Function_toString : string -> string
}.

(** Whether [ToPrimitive] completes on a value: this is what [String(v)],
    a template literal, [v + 1], [new Date(v)] and a property key [o[v]]
    ask for.  An object inherits [toString] and [valueOf] from
    [Object.prototype] unless it has an own property of that name; with an
    own [toString] (no function that returns a primitive: the model has
    none) no conversion is left, whatever [valueOf] is.  An array joins the
    strings of its elements, [null] and [undefined] left out. *)
Fixpoint stringifies (v : value) : bool :=
  match v with
  | Obj props =>
      match assoc "toString" props with
      | Some _ => false
      | None => true
      end
  | Arr items => forallb (fun x => nullish x || stringifies x) items
  | _ => true
  end.

Definition to_primitive (v : value) : exn + unit :=
  if stringifies v then inr tt else inl TypeError.

(** [String(v)], for a value whose conversion completes. *)
Fixpoint text_of {page : Page} (v : value) : string :=
  match v with
  | Undefined => "undefined"
  | Null => "null"
  | Bool b => if b then "true" else "false"
  | Num x => Number_toString x
  | Str t => t
  | Arr items =>
      String.concat ","
        (List.map (fun x => if nullish x then "" else text_of x) items)
  | Obj _ => "[object Object]"
  | Fn name => Function_toString name
  end.

(** The two interpolations of a project that was found:
    [${project.color}] and [${project.name}]. *)
Definition write_project (project : value) : exn + unit :=
  and_then (get_prop project "color") (fun color =>
  and_then (to_primitive color) (fun _ =>
  and_then (get_prop project "name") to_primitive)).

(** The [forEach] over the entries of a day in [renderCalendar]: the
    project is looked up and, when it is found, its colour and name and the
    hours of the entry are written. *)
Fixpoint render_entries (s : state) (dayEntries : list value) : exn + unit :=
  match dayEntries with
  | [] => inr tt
  | entry :: rest =>
      and_then (project_of s entry) (fun project =>
      and_then (if truthy project then
                  and_then (write_project project) (fun _ =>
                  and_then (get_prop entry "hours") to_primitive)
                else inr tt) (fun _ =>
      render_entries s rest))
  end.

(** The loop over the days of the month. *)
Fixpoint render_days (s : state) (dates : list string) : exn + unit :=
  match dates with
  | [] => inr tt
  | date :: dates =>
      and_then (day_entries s date) (fun dayEntries =>
      and_then (render_entries s dayEntries) (fun _ =>
      render_days s dates))
  end.

(** The callback of the filter of [updateStats]:
    [new Date(entry.date) >= startDate]. *)
Fixpoint stats_filter {page : Page} (s : state) (items : list value)
  : exn + list value :=
  match items with
  | [] => inr []
  | entry :: items =>
      and_then (get_prop entry "date") (fun date =>
      and_then (to_primitive date) (fun _ =>
      and_then (stats_filter s items) (fun kept =>
      inr (if in_period s date then entry :: kept else kept))))
  end.

(** [stats[entry.projectId] += entry.hours] for each entry kept: the
    property keys that [stats] is asked for. *)
Fixpoint stats_keys {page : Page} (kept : list value) : exn + list string :=
  match kept with
  | [] => inr []
  | entry :: kept =>
      and_then (get_prop entry "projectId") (fun projectId =>
      and_then (to_primitive projectId) (fun _ =>
      and_then (get_prop entry "hours") (fun hours =>
      and_then (to_primitive hours) (fun _ =>
      and_then (stats_keys kept) (fun keys =>
      inr (text_of projectId :: keys))))))
  end.

(** [Object.keys(stats)]: every key that was asked for is an own property
    of [stats] afterwards, but [__proto__], which is set through the
    accessor of [Object.prototype]. *)
Definition own_keys (keys : list string) : list string :=
  filter (fun key => key <> "__proto__") keys.

(** The [forEach] over [Object.keys(stats)]: the project of
    [parseInt(projectId)] is looked up and written when it is found. *)
Fixpoint stats_lines (s : state) (keys : list string) : exn + unit :=
  match keys with
  | [] => inr tt
  | projectId :: keys =>
      and_then (match projects s with
                | Arr ps => find_project ps (Num (parseInt projectId))
                | _ => inl TypeError
                end) (fun project =>
      and_then (if truthy project then write_project project else inr tt)
        (fun _ => stats_lines s keys))
  end.

(** The [reduce] over the entries kept: [sum + entry.hours]. *)
Fixpoint stats_total (kept : list value) : exn + unit :=
  match kept with
  | [] => inr tt
  | entry :: kept =>
      and_then (get_prop entry "hours") (fun hours =>
      and_then (to_primitive hours) (fun _ => stats_total kept))
  end.

(** A project whose colour and name can be written into the page, an entry
    whose date, project id and hours can, and a state whose collections are
    arrays of such objects. *)
Definition plain_project (p : value) : bool :=
  match p with
  | Obj props =>
      stringifies (default Undefined (assoc "color" props))
      && stringifies (default Undefined (assoc "name" props))
  | _ => false
  end.

Definition plain_entry (e : value) : bool :=
  match e with
  | Obj props =>
      stringifies (default Undefined (assoc "date" props))
      && stringifies (default Undefined (assoc "projectId" props))
      && stringifies (default Undefined (assoc "hours" props))
  | _ => false
  end.

Definition renderable (s : state) : bool :=
  match projects s, entries s with
  | Arr ps, Arr es => forallb plain_project ps && forallb plain_entry es
  | _, _ => false
  end.

Section Editing.
Context {host : Host} {page : Page}.

(** [renderCalendar()]. *)
Definition renderCalendar : M unit :=
  let* s := gets (fun s => s) in lift (render_days s (month_dates s)).

(** [updateStats()]. *)
Definition updateStats : M unit :=
  let* s := gets (fun s => s) in
  match entries s with
  | Arr items =>
      let* kept := lift (stats_filter s items) in
      let* keys := lift (stats_keys kept) in
      lift (stats_lines s (own_keys keys)) >>
      lift (stats_total kept)
  | _ => throw TypeError
  end.

(** [array.push(x)]. *)
Definition push (array x : value) : exn + value :=
  match array with
  | Arr items => inr (Arr (items ++ [x]))
  | _ => inl TypeError
  end.

(** [addEntry(date, projectId, hours)]; the two values come from form
    controls and are strings. *)
Definition addEntry (date projectId hours : string) : M string :=
  let* entryId := generateId in
  let* createdAt := now_iso in
  let* online := gets isOnline in
  let newEntry :=
    Obj [("id", Str entryId); ("date", Str date);
         ("projectId", Num (parseInt projectId));
         ("hours", Num (parseFloat hours));
         ("createdAt", Str createdAt); ("synced", Bool online)] in
  let* es := gets entries in
  let* es' := lift (push es newEntry) in
  modify (set_entries es') >>
  renderCalendar >>
  updateStats >>
  saveWithRetry >>
  ret entryId.

(** [addProject(e)], with the two input values of the form. *)
Definition addProject (name color : string) : M unit :=
  let* id := generateId in
  let newProject := Obj [("id", Str id); ("name", Str name); ("color", Str color)] in
  let* ps := gets projects in
  let* ps' := lift (push ps newProject) in
  modify (set_projects ps') >>
  saveWithRetry >>
  renderCalendar.

End Editing.

Section Rest.
Context {host : Host} {page : Page}.

(** [deleteEntry(entryId)], with the id the button carries in its data
    attribute, a string. *)
Definition deleteEntry (entryId : string) : M unit :=
  let* es := gets entries in
  match es with
  | Arr items =>
      let* kept := lift (without_id entryId items) in
      modify (set_entries (Arr kept)) >>
      saveWithRetry >>
      renderCalendar >>
      updateStats
  | _ => throw TypeError
  end.

(** [syncData()]: it logs when online and does nothing else. *)
Definition syncData : M unit :=
  let* online := gets isOnline in ret tt.

(** The listeners of [setupNetworkListeners]. *)
Definition on_online : M unit :=
  modify (set_isOnline true) >> syncData >>
  showMessage "Соединение восстановлено" "success".

Definition on_offline : M unit :=
  modify (set_isOnline false) >>
  showMessage "Работа в офлайн-режиме" "warning".

(** [showDayModal(date)], as far as it can raise: the list of the day, then
    the options of the project select. *)
Definition showDayModal (date : string) : M unit :=
  let* s := gets (fun s => s) in
  let* _ := lift (modal_list s date) in
  let* _ := lift (select_options s) in ret tt.

(** The submit handler of the form in the modal; the two values are those of
    the form controls. *)
Definition on_submit_entry (date projectId hours : string) : M unit :=
  if negb (String.eqb projectId "") && negb (String.eqb hours "") then
    let* _ := addEntry date projectId hours in showDayModal date
  else ret tt.

End Rest.

(** ** The offline cache gateway (sw.js) *)

Module ServiceWorker.

Definition CACHE_NAME : string := "work-timesheet-v1.2".

Definition STATIC_CACHE : string := "static-v1.1".

Definition STATIC_FILES : list string :=
  ["./"; "./index.html"; "./404.html"; "./manifest.json"; "./favicon.ico"].

(** A parsed URL; [href] is its serialisation, [request.url]. *)
Record URL : Type := Url {
  origin : string;
  pathname : string;
  search : string;
  hash : string
}.

Definition href (u : URL) : string :=
  origin u +:+ pathname u +:+ search u +:+ hash u.

Record Request : Type := {
  method : string;
  url : URL;
  destination : string
}.

Record Response : Type := {
  status : nat;
  body : string
}.

(** A cache matches requests by their URL without the fragment. *)
Definition cache_key (u : URL) : string :=
  origin u +:+ pathname u +:+ search u.

(** [CacheStorage]: the buckets by name, in the order they were created. *)
Definition CacheStorage : Type := list (string * gmap string Response).

(** [caches.match(key)]: the first bucket that has the key answers; [None] is
    [undefined]. *)
Fixpoint caches_match (cs : CacheStorage) (key : string) : option Response :=
  match cs with
  | [] => None
  | (_, c) :: cs =>
      match c !! key with
      | Some r => Some r
      | None => caches_match cs key
      end
  end.

Fixpoint has_cache (name : string) (cs : CacheStorage) : bool :=
  match cs with
  | [] => false
  | (n, _) :: cs => String.eqb n name || has_cache name cs
  end.

(** [caches.open(name)] creates the bucket when there is none. *)
Definition caches_open (name : string) (cs : CacheStorage) : CacheStorage :=
  if has_cache name cs then cs else cs ++ [(name, ∅)].

(** [cache.put(key, response)] on the bucket [name]. *)
Fixpoint cache_put (name key : string) (r : Response) (cs : CacheStorage)
  : CacheStorage :=
  match cs with
  | [] => []
  | (n, c) :: cs =>
      if String.eqb n name then (n, <[key := r]> c) :: cs
      else (n, c) :: cache_put name key r cs
  end.

(** [text.match(/\.(html|css|js|json)$/)]. *)
Definition is_static_url (text : string) : bool :=
  endsWith text ".html" || endsWith text ".css" ||
  endsWith text ".js" || endsWith text ".json".

(** What the listener does with the event: it leaves it to the browser, or
    it hands [respondWith] a promise that settles with a response or with
    [undefined] ([None]). *)
Inductive handled : Type :=
| NotIntercepted
| Resolved (r : option Response).

Section Worker.

(** [self.location.origin], and the directory of the worker script, against
    which [./index.html] is resolved. *)
Variables (self_origin base : string).

(** A [./name] reference of the worker, resolved. *)
Definition resolve (ref : string) : string :=
  match ref with
  | String "." (String "/" rest) => base +:+ rest
  | _ => base +:+ ref
  end.

(** The [fetch] listener.  [net] is what the network gives for the request:
    a response, or a failure ([None]). *)
Definition on_fetch (net : option Response) (request : Request)
    (cs : CacheStorage) : handled * CacheStorage :=
  if negb (String.eqb (method request) "GET") then (NotIntercepted, cs)
  else if negb (String.eqb (origin (url request)) self_origin)
  then (NotIntercepted, cs)
  else
    match caches_match cs (cache_key (url request)) with
    | Some response => (Resolved (Some response), cs)
    | None =>
        match net with
        | Some fetchResponse =>
            let cs' :=
              if Nat.eqb (status fetchResponse) 200 then
                let opened := caches_open STATIC_CACHE cs in
                if is_static_url (href (url request))
                then cache_put STATIC_CACHE (cache_key (url request))
                       fetchResponse opened
                else opened
              else cs in
            (Resolved (Some fetchResponse), cs')
        | None =>
            if String.eqb (destination request) "document"
            then (Resolved (caches_match cs (resolve "./index.html")), cs)
            else (Resolved None, cs)
        end
    end.

(** What [cache.addAll] takes: a response with an ok status (200 to 299)
    that is not a partial one (206).  (A response of the model carries no
    headers, hence no [Vary].) *)
Definition addable (r : Response) : bool :=
  Nat.leb 200 (status r) && Nat.ltb (status r) 300
  && negb (Nat.eqb (status r) 206).

(** The [install] listener: [cache.addAll(STATIC_FILES)] into the static
    bucket; it adds all the files or, when one cannot be fetched or its
    response is not taken, none.  [fetched k] is what the network gives for
    [k], [None] when the fetch fails. *)
Definition install (fetched : string -> option Response) (cs : CacheStorage)
  : CacheStorage :=
  let opened := caches_open STATIC_CACHE cs in
  let keys : list string := resolve <$> STATIC_FILES in
  if forallb (fun k => match fetched k with
                       | Some r => addable r
                       | None => false
                       end) keys
  then foldl (fun cs k => match fetched k with
                          | Some r => cache_put STATIC_CACHE k r cs
                          | None => cs
                          end) opened keys
  else opened.

End Worker.

(** The [activate] listener: every bucket that has neither of the two
    current names is deleted. *)
Definition activate (cs : CacheStorage) : CacheStorage :=
  filter (fun bucket => bucket.1 = CACHE_NAME \/ bucket.1 = STATIC_CACHE) cs.

(** The bucket of a name, if there is one. *)
Fixpoint bucket (name : string) (cs : CacheStorage)
  : option (gmap string Response) :=
  match cs with
  | [] => None
  | (n, c) :: cs => if String.eqb n name then Some c else bucket name cs
  end.

(** A site for the examples. *)

Definition site : string := "https://timesheet.example".

Definition app_dir : string := "https://timesheet.example/app/".

Definition get (path query dest : string) : Request :=
  {| method := "GET"; url := Url site path query ""; destination := dest |}.

Definition ok (text : string) : Response := {| status := 200; body := text |}.

(** The buckets after an [install] that fetched every file. *)
Definition installed : CacheStorage :=
  install app_dir (fun key => Some (ok ("content of " +:+ key))) [].

End ServiceWorker.

(** ** A host and pages for the examples

    The codec is a finite table of documents, the storage area has a size
    limit in characters, the clock and the random digits are fixed. *)

Fixpoint table_lookup (text : string) (docs : list (string * value))
  : option value :=
  match docs with
  | [] => None
  | (t, v) :: docs => if String.eqb text t then Some v else table_lookup text docs
  end.

Definition table_parse (docs : list (string * value)) (text : string)
  : option value :=
  if String.eqb text "" then None else table_lookup text docs.

Definition storage_size (m : gmap string string) : nat :=
  map_fold (fun k v n => String.length k + String.length v + n) 0 m.

Definition within_quota (quota : nat) (m : gmap string string) (k v : string)
  : bool :=
  bool_decide (storage_size (<[k := v]> m) <= quota).

Definition table_host (docs : list (string * value)) (out : string)
    (quota : nat) (now : Z) (digits : string) : Host :=
  {| JSON_parse := table_parse docs;
     JSON_stringify := fun _ => out;
     storage_accepts := within_quota quota;
     Date_now := fun _ => now;
     Date_toISOString := fun _ => "2026-01-15T09:00:00.000Z";
     Math_random_digits := fun _ => digits;
     parseFloat := fun _ => 8%float;
     JSON_parse_empty := eq_refl |}.

(** The integer that a Number is, if it is one. *)
Definition integer_of (x : float) : option Z :=
  match Prim2SF x with
  | S754_zero _ => Some 0%Z
  | S754_finite sign m e =>
      let sgn := if sign then (-1)%Z else 1%Z in
      if (0 <=? e)%Z then Some (sgn * Z.pos m * 2 ^ e)%Z
      else if (Z.pos m mod 2 ^ (- e) =? 0)%Z
           then Some (sgn * (Z.pos m / 2 ^ (- e)))%Z
           else None
  | _ => None
  end.

(** [String(x)] as the examples need it: for [NaN], the infinities and the
    integers below 10^21 in absolute value.  The examples write no other
    number. *)
Definition number_text (x : float) : string :=
  match Prim2SF x with
  | S754_nan => "NaN"
  | S754_infinity sign => if sign then "-Infinity" else "Infinity"
  | _ =>
      match integer_of x with
      | Some z => if (Z.abs z <? 10 ^ 21)%Z then integer_toString z else "NaN"
      | None => "NaN"
      end
  end.

Definition two_digits (n : nat) : string :=
  String (digit_char (Z.of_nat (n / 10)))
    (String (digit_char (Z.of_nat (n mod 10))) "").

(** The page of the examples: the calendar shows January 2026 and the
    statistics are those of all time (every date of the examples is after
    1970). *)
Definition january_page : Page :=
  {| month_dates := fun _ => (fun day => "2026-01-" +:+ two_digits day) <$> seq 1 31;
     in_period := fun _ _ => true;
     Number_toString := number_text;
     Function_toString := fun name => "function " +:+ name +:+ "() { [native code] }" |}.

(** The state the constructor builds, before [init()]. *)
Definition constructed (online allowed : bool) (m : gmap string string) : state :=
  {| projects := Arr []; entries := Arr []; isOnline := online;
     saveTimeout := None; retryCount := 0; maxRetries := 3;
     storage_allowed := allowed; localStorage := m;
     timeouts := []; messages := []; ticks := 0 |}.

Definition stored_entry : value :=
  Obj [("id", Str "m2xk41a7c0"); ("date", Str "2026-01-14");
       ("projectId", Num 2); ("hours", Num 6);
       ("createdAt", Str "2026-01-14T17:05:12.431Z"); ("synced", Bool true)].

Definition stored_project : value :=
  Obj [("id", Num 2); ("name", Str "Тестирование"); ("color", Str "#ef4444")].

(** The snapshot held by the backup key in the examples. *)
Definition backup_document : value :=
  Obj [("projects", Arr [stored_project]); ("entries", Arr [stored_entry]);
       ("lastSaved", Str "2026-01-14T17:05:12.440Z")].

Definition documents : list (string * value) :=
  [("<snapshot>", Obj [("projects", Arr []); ("entries", Arr [])]);
   ("<backup>", backup_document)].

(** 2026-01-15, a roomy storage area. *)
Definition office_host : Host :=
  table_host documents "<snapshot>" 4000 1768467600000 "k3f9x2".

(** The same, with room for one copy of a snapshot and no more. *)
Definition full_host : Host :=
  table_host documents "<snapshot>" 30 1768467600000 "k3f9x2".

(** The clock of 2084-03-25: [Date.now().toString(36)] is "1a0000000". *)
Definition late_host : Host :=
  table_host documents "<snapshot>" 4000 (36 ^ 8 + 10 * 36 ^ 7) "k3f9x2".

Definition fresh_page : state := constructed true true ∅.

Definition denied_page : state := constructed true false ∅.

Definition backup_only_page : state :=
  constructed true true (<[BACKUP := "<backup>"]> ∅).


(** Eleven keys of the application and one of somebody else. *)
Definition crowded_store : gmap string string :=
  list_to_map
    [("workTimesheet_data", "<snapshot>"); ("workTimesheet_backup", "<snapshot>");
     ("workTimesheet_2025-03", "a"); ("workTimesheet_2025-04", "b");
     ("workTimesheet_2025-05", "c"); ("workTimesheet_2025-06", "d");
     ("workTimesheet_2025-07", "e"); ("workTimesheet_2025-08", "f");
     ("workTimesheet_2025-09", "g"); ("workTimesheet_2025-10", "h");
     ("workTimesheet_2025-11", "i"); ("theme", "dark")].

Definition crowded_page : state := constructed true true crowded_store.

(** A project is added, then an entry for it. *)
Definition project_then_entry {host : Host} {page : Page} (id : string)
  : M string :=
  addProject "Отпуск" "#8b5cf6" >> addEntry "2084-03-25" (option_value id) "8".

(** Entries for the examples: one kept from a version that gave entries no
    id, one whose id is a number, one whose project is gone. *)
Definition legacy_entry : value :=
  Obj [("date", Str "2025-12-01"); ("projectId", Num 1); ("hours", Num 4)].

Definition numbered_entry : value :=
  Obj [("id", Num 17); ("date", Str "2026-01-14"); ("projectId", Num 1);
       ("hours", Num 2)].

Definition orphan_entry : value :=
  Obj [("id", Str "m2xk41a7c1"); ("date", Str "2026-01-14");
       ("projectId", Num 9); ("hours", Num 3)].

Definition legacy_page : state :=
  set_entries (Arr [legacy_entry; stored_entry]) fresh_page.

(** The built-in projects and three entries. *)
Definition working_page : state :=
  set_entries (Arr [stored_entry; numbered_entry; orphan_entry])
    (seeded fresh_page).

(** The same with [projects] a number, with [entries] a number, and with an
    entry that is [null], as a snapshot that [loadFromBackup] adopts can
    leave them. *)
Definition no_projects_page : state := set_projects (Num 5) working_page.

Definition no_entries_page : state := set_entries (Num 5) (seeded fresh_page).

Definition null_entry_page : state :=
  set_entries (Arr [stored_entry; Null]) (seeded fresh_page).

(** A primary text that decodes to a snapshot whose [entries] is a number. *)
Definition odd_host : Host :=
  table_host [("<odd>", Obj [("projects", Arr []); ("entries", Num 5)])]
    "<snapshot>" 4000 1768467600000 "k3f9x2".

Definition odd_page : state := constructed true true (<[PRIMARY := "<odd>"]> ∅).


(** Both keys hold a snapshot, and not the same one. *)
Definition primary_page : state :=
  constructed true true (<[PRIMARY := "<backup>"]> (<[BACKUP := "<snapshot>"]> ∅)).

(** One project, one entry, and a codec that decodes what it encodes for
    this page. *)
Definition saved_page : state :=
  set_entries (Arr [stored_entry]) (set_projects (Arr [stored_project]) fresh_page).

Definition echo_host : Host :=
  table_host [("<saved>", snapshot saved_page "2026-01-15T09:00:00.000Z")]
    "<saved>" 4000 1768467600000 "k3f9x2".




(** The page after one edit: a deferred save is pending. *)
Definition edited_page : state :=
  final_state (saveWithRetry (host := office_host) fresh_page).


(** Eleven keys of the application, nine of which sort above the two live
    ones. *)
Definition settings_store : gmap string string :=
  list_to_map
    [("workTimesheet_data", "<snapshot>"); ("workTimesheet_backup", "<snapshot>");
     ("workTimesheet_draft", "a"); ("workTimesheet_filter", "b");
     ("workTimesheet_lang", "c"); ("workTimesheet_notes", "d");
     ("workTimesheet_prefs", "e"); ("workTimesheet_recent", "f");
     ("workTimesheet_theme", "g"); ("workTimesheet_view", "h");
     ("workTimesheet_zoom", "i")].

Definition settings_page : state := constructed true true settings_store.

(** * Part II: properties *)

(** ** The order of [sort] *)

Lemma string_compare_refl (a : string) : String.compare a a = Eq.
Proof.
  induction a as [|c a IH]; simpl; [done|].
  unfold Ascii.compare. by rewrite N.compare_refl.
Qed.

Lemma string_compare_lt_trans (a b c : string) :
  String.compare a b = Lt -> String.compare b c = Lt -> String.compare a c = Lt.
Proof.
  revert b c. induction a as [|x a IH]; intros [|y b] [|z c]; simpl; try done.
  unfold Ascii.compare.
  destruct (N.compare_spec (N_of_ascii x) (N_of_ascii y)) as [Exy|Lxy|Gxy];
    try done;
    destruct (N.compare_spec (N_of_ascii y) (N_of_ascii z)) as [Eyz|Lyz|Gyz];
    try done; intros Hab Hbc.
  - rewrite Exy, Eyz, N.compare_refl. eauto.
  - rewrite Exy. by apply N.compare_lt_iff in Lyz as ->.
  - rewrite <- Eyz. by apply N.compare_lt_iff in Lxy as ->.
  - assert (N_of_ascii x < N_of_ascii z)%N as Lxz by (by etrans).
    by apply N.compare_lt_iff in Lxz as ->.
Qed.

Lemma units_compare_refl (u : list N) : units_compare u u = Eq.
Proof. induction u as [|x u IH]; simpl; [done|]. by rewrite N.compare_refl. Qed.

Lemma units_compare_eq (u v : list N) : units_compare u v = Eq -> u = v.
Proof.
  revert v. induction u as [|x u IH]; intros [|y v]; simpl; try done.
  destruct (N.compare_spec x y) as [->| |]; try done.
  intros H. by rewrite (IH v H).
Qed.

Lemma units_compare_antisym (u v : list N) :
  units_compare v u = CompOpp (units_compare u v).
Proof.
  revert v. induction u as [|x u IH]; intros [|y v]; simpl; try done.
  rewrite (N.compare_antisym x y).
  destruct (x ?= y)%N; simpl; [apply IH|done..].
Qed.

Lemma units_compare_lt_trans (u v w : list N) :
  units_compare u v = Lt -> units_compare v w = Lt -> units_compare u w = Lt.
Proof.
  revert v w. induction u as [|x u IH]; intros [|y v] [|z w]; simpl; try done.
  destruct (N.compare_spec x y) as [Exy|Lxy|Gxy]; try done;
    destruct (N.compare_spec y z) as [Eyz|Lyz|Gyz]; try done; intros Hab Hbc.
  - rewrite Exy, Eyz, N.compare_refl. eauto.
  - rewrite Exy. by apply N.compare_lt_iff in Lyz as ->.
  - rewrite <- Eyz. by apply N.compare_lt_iff in Lxy as ->.
  - assert (x < z)%N as Lxz by (by etrans).
    by apply N.compare_lt_iff in Lxz as ->.
Qed.

Lemma js_compare_refl (a : string) : js_compare a a = Eq.
Proof.
  unfold js_compare. by rewrite units_compare_refl, string_compare_refl.
Qed.

Lemma js_compare_eq (a b : string) : js_compare a b = Eq -> a = b.
Proof.
  unfold js_compare. destruct (units_compare _ _); try done.
  apply String.compare_eq_iff.
Qed.

Lemma js_compare_antisym (a b : string) :
  js_compare b a = CompOpp (js_compare a b).
Proof.
  unfold js_compare. rewrite (units_compare_antisym (code_units a)).
  destruct (units_compare (code_units a) (code_units b)); simpl; try done.
  apply String.compare_antisym.
Qed.

Lemma js_compare_lt_trans (a b c : string) :
  js_compare a b = Lt -> js_compare b c = Lt -> js_compare a c = Lt.
Proof.
  unfold js_compare.
  destruct (units_compare (code_units a) (code_units b)) eqn:Hab; try done;
    destruct (units_compare (code_units b) (code_units c)) eqn:Hbc; try done.
  - apply units_compare_eq in Hab, Hbc. rewrite Hab, Hbc, units_compare_refl.
    apply string_compare_lt_trans.
  - apply units_compare_eq in Hab. by rewrite Hab, Hbc.
  - apply units_compare_eq in Hbc. by rewrite <- Hbc, Hab.
  - by rewrite (units_compare_lt_trans _ _ _ Hab Hbc).
Qed.

#[export] Instance str_le_trans : Transitive str_le.
Proof.
  intros a b c. unfold str_le.
  destruct (js_compare a b) eqn:Hab; try done;
    destruct (js_compare b c) eqn:Hbc; try done; intros _ _.
  - apply js_compare_eq in Hab as ->. by rewrite Hbc.
  - apply js_compare_eq in Hab as ->. by rewrite Hbc.
  - apply js_compare_eq in Hbc as <-. by rewrite Hab.
  - by rewrite (js_compare_lt_trans a b c).
Qed.

#[export] Instance str_le_total : Total str_le.
Proof.
  intros a b. unfold str_le. rewrite (js_compare_antisym a b).
  destruct (js_compare a b); simpl; auto.
Qed.

#[export] Instance str_le_antisym : AntiSymm (=) str_le.
Proof.
  intros a b. unfold str_le. rewrite (js_compare_antisym a b).
  destruct (js_compare a b) eqn:E; simpl; try done.
  intros _ _. by apply js_compare_eq.
Qed.

Lemma sort_sorted (keys : list string) : StronglySorted str_le (sort keys).
Proof. apply StronglySorted_merge_sort; apply _. Qed.

Lemma sort_perm (keys : list string) : sort keys ≡ₚ keys.
Proof. apply merge_sort_Permutation. Qed.

(** A supplementary character sorts below U+FF5E, as its first surrogate
    does, although its bytes are above. *)
Lemma sort_by_code_units :
  sort ["k～"; "k😀"; "ka"] = ["ka"; "k😀"; "k～"] /\
  String.compare "k😀" "k～" = Gt.
Proof. vm_compute. by split. Qed.

(** Whatever algorithm the engine uses, a sorted listing of the same keys is
    this one. *)
Lemma sort_unique (keys l : list string) :
  StronglySorted str_le l -> l ≡ₚ keys -> l = sort keys.
Proof.
  intros Hs Hp. apply (StronglySorted_unique str_le); [done|apply sort_sorted|].
  by rewrite Hp, sort_perm.
Qed.

(** ** Storage clean-up *)

Lemma state_eta (s : state) :
  State (projects s) (entries s) (isOnline s) (saveTimeout s) (retryCount s)
    (maxRetries s) (storage_allowed s) (localStorage s) (timeouts s)
    (messages s) (ticks s) = s.
Proof. by destruct s. Qed.

Lemma set_localStorage_id (s : state) : set_localStorage (localStorage s) s = s.
Proof. apply state_eta. Qed.

Lemma lookup_remove_keys (l : list string) (m : gmap string string) (k : string) :
  remove_keys l m !! k = if decide (k ∈ l) then None else m !! k.
Proof.
  revert m. induction l as [|x l IH]; intros m; simpl.
  - destruct (decide (k ∈ [])) as [Hin|]; [by apply elem_of_nil in Hin|done].
  - rewrite IH.
    destruct (decide (k ∈ l)) as [Hl|Hl], (decide (k ∈ x :: l)) as [Hx|Hx].
    + done.
    + exfalso. apply Hx. by right.
    + apply elem_of_cons in Hx as [->|Hx]; [apply lookup_delete_eq|done].
    + apply lookup_delete_ne. intros ->. apply Hx. by left.
Qed.

Lemma namespaced_spec (m : gmap string string) (k : string) :
  k ∈ namespaced m <-> startsWith k PREFIX = true /\ is_Some (m !! k).
Proof.
  unfold namespaced. rewrite list_elem_of_filter, list_elem_of_fmap.
  split.
  - intros [Hp [[k' v] [-> Hin]]]. split; [done|].
    apply elem_of_map_to_list in Hin. by exists v.
  - intros [Hp [v Hv]]. split; [done|]. exists (k, v). split; [done|].
    by apply elem_of_map_to_list.
Qed.

Lemma namespaced_NoDup (m : gmap string string) : NoDup (namespaced m).
Proof. apply NoDup_filter, NoDup_fst_map_to_list. Qed.

Section StorageFacts.
Context {host : Host}.

Lemma removeItem_allowed (k : string) (s : state) :
  storage_allowed s = true ->
  removeItem k s = Return tt (set_localStorage (delete k (localStorage s)) s).
Proof.
  intros Ha. unfold removeItem, bind, the_localStorage. by rewrite Ha.
Qed.

Lemma forEach_removeItem (l : list string) (s : state) :
  storage_allowed s = true ->
  forEach removeItem l s
  = Return tt (set_localStorage (remove_keys l (localStorage s)) s).
Proof.
  revert s. induction l as [|k l IH]; intros s Ha; simpl.
  - by rewrite set_localStorage_id.
  - unfold bind. rewrite removeItem_allowed by done.
    rewrite IH by done. done.
Qed.

Lemma cleanupStorage_allowed (s : state) :
  storage_allowed s = true ->
  cleanupStorage s = Return tt (set_localStorage (cleaned (localStorage s)) s).
Proof.
  intros Ha. unfold cleanupStorage, Object_keys_localStorage, bind at 1 2.
  unfold the_localStorage. rewrite Ha. unfold ret, cleaned.
  fold (namespaced (localStorage s)).
  destruct (decide (10 < length (namespaced (localStorage s)))).
  - by apply forEach_removeItem.
  - by rewrite set_localStorage_id.
Qed.

Lemma cleanupStorage_denied (s : state) :
  storage_allowed s = false -> cleanupStorage s = Throw SecurityError s.
Proof.
  intros Ha. unfold cleanupStorage, Object_keys_localStorage, bind at 1 2.
  unfold the_localStorage. by rewrite Ha.
Qed.



Lemma saveToLocalStorage_caught (data : value) (s : state) :
  throws (write_both data s) = true ->
  saveToLocalStorage data s = cleanupStorage (final_state (write_both data s)).
Proof.
  unfold saveToLocalStorage, try_catch, throws.
  by destruct (write_both data s).
Qed.

(** The [try] block of [saveToLocalStorage] completes exactly when storage
    can be reached and the storage area takes the primary copy and then, on
    top of it, the backup copy. *)
Lemma write_both_returns (data : value) (s : state) :
  returns (write_both data s) = true ->
  storage_allowed s = true /\
  storage_accepts (localStorage s) PRIMARY (JSON_stringify data) = true /\
  storage_accepts (<[PRIMARY := JSON_stringify data]> (localStorage s))
    BACKUP (JSON_stringify data) = true.
Proof.
  unfold write_both, bind at 1, setItem at 1, bind at 1, the_localStorage at 1.
  destruct (storage_allowed s) eqn:Ha; [|done].
  destruct (storage_accepts (localStorage s) PRIMARY _) eqn:A1; [|done].
  unfold modify, setItem, bind, the_localStorage. simpl. rewrite Ha.
  destruct (storage_accepts (<[PRIMARY:=_]> (localStorage s)) BACKUP _); done.
Qed.

(** The primary copy is written first: a refused primary write leaves the
    store as it was, a refused backup write leaves the new primary copy next
    to the old backup. *)
Lemma write_both_primary_refused (data : value) (s : state) :
  storage_allowed s = true ->
  storage_accepts (localStorage s) PRIMARY (JSON_stringify data) = false ->
  write_both data s = Throw QuotaExceededError s.
Proof.
  intros Ha A1. unfold write_both, bind at 1, setItem at 1, bind at 1.
  unfold the_localStorage at 1. by rewrite Ha, A1.
Qed.

Lemma write_both_backup_refused (data : value) (s : state) :
  storage_allowed s = true ->
  storage_accepts (localStorage s) PRIMARY (JSON_stringify data) = true ->
  storage_accepts (<[PRIMARY := JSON_stringify data]> (localStorage s))
    BACKUP (JSON_stringify data) = false ->
  write_both data s
  = Throw QuotaExceededError
      (set_localStorage (<[PRIMARY := JSON_stringify data]> (localStorage s)) s).
Proof.
  intros Ha A1 A2. unfold write_both, bind at 1, setItem at 1, bind at 1.
  unfold the_localStorage at 1. rewrite Ha, A1.
  unfold modify, setItem, bind, the_localStorage. simpl. by rewrite Ha, A2.
Qed.

End StorageFacts.


(** ** What [saveData] does to the state *)

Section SaveDataFacts.
Context {host : Host}.

Lemma saveToLocalStorage_allowed (data : value) (s : state) :
  storage_allowed s = true ->
  saveToLocalStorage data s
  = Return tt (set_localStorage (saved_store data (localStorage s)) s).
Proof.
  intros Ha. unfold saveToLocalStorage, try_catch, write_both, bind at 1.
  unfold setItem at 1, bind at 1, the_localStorage at 1. rewrite Ha.
  unfold saved_store.
  destruct (storage_accepts (localStorage s) PRIMARY _) eqn:A1.
  - unfold modify, setItem, bind, the_localStorage. simpl. rewrite Ha.
    destruct (storage_accepts (<[PRIMARY:=_]> (localStorage s)) BACKUP _) eqn:A2.
    + done.
    + unfold throw. rewrite cleanupStorage_allowed by done. done.
  - unfold throw. by rewrite cleanupStorage_allowed.
Qed.

Lemma saveToLocalStorage_denied (data : value) (s : state) :
  storage_allowed s = false ->
  saveToLocalStorage data s = Throw SecurityError s.
Proof.
  intros Ha. unfold saveToLocalStorage, try_catch, write_both, bind at 1.
  unfold setItem at 1, bind at 1, the_localStorage at 1. rewrite Ha.
  by apply cleanupStorage_denied.
Qed.

Lemma saveData_allowed (s : state) :
  storage_allowed s = true -> saveData s = Return tt (after_save s).
Proof.
  intros Ha. unfold saveData, bind at 1, now_iso.
  unfold bind at 1, gets at 1. unfold bind at 1.
  rewrite saveToLocalStorage_allowed by done.
  unfold after_save, cleared_timeouts.
  destruct s as [p e o st rc mr sa ls ts ms tk]; simpl in *.
  destruct st as [i|]; reflexivity.
Qed.

Lemma saveData_denied (s : state) :
  storage_allowed s = false ->
  saveData s = Throw SecurityError (set_ticks (S (ticks s)) s).
Proof.
  intros Ha. unfold saveData, bind at 1, now_iso.
  unfold bind at 1, gets at 1. unfold bind at 1.
  by rewrite saveToLocalStorage_denied.
Qed.


End SaveDataFacts.


(** ** One call of [attemptSave] *)

Section AttemptFacts.
Context {host : Host}.

Lemma attemptSave_allowed (s : state) :
  storage_allowed s = true ->
  attemptSave s = Return tt (set_retryCount 0 (after_save s)).
Proof.
  intros Ha. unfold attemptSave, try_catch, bind.
  by rewrite saveData_allowed.
Qed.

Lemma attemptSave_denied_retry (s : state) :
  storage_allowed s = false -> retryCount s < maxRetries s ->
  attemptSave s = Return tt (rescheduled s).
Proof.
  intros Ha Hlt. unfold attemptSave, try_catch, bind at 1.
  rewrite saveData_denied by done.
  unfold bind at 1, gets at 1. unfold bind at 1, gets at 1.
  simpl. rewrite decide_True by done. reflexivity.
Qed.

Lemma attemptSave_denied_give_up (s : state) :
  storage_allowed s = false -> ~ retryCount s < maxRetries s ->
  attemptSave s = Return tt (gave_up s).
Proof.
  intros Ha Hge. unfold attemptSave, try_catch, bind at 1.
  rewrite saveData_denied by done.
  unfold bind at 1, gets at 1. unfold bind at 1, gets at 1.
  simpl. rewrite decide_False by done. reflexivity.
Qed.

Lemma retry_filter_cancel (i : nat) (ts : list timer) :
  delay <$> filter (fun t => callback t = AttemptSave) (alter cancel i ts)
  = delay <$> filter (fun t => callback t = AttemptSave) ts.
Proof.
  revert i. induction ts as [|t ts IH]; intros [|i]; try done.
  - change (alter cancel 0 (t :: ts)) with (cancel t :: ts).
    rewrite !filter_cons.
    assert (callback (cancel t) = callback t /\ delay (cancel t) = delay t)
      as [Hc Hd] by (unfold cancel; by destruct (status t)).
    rewrite Hc. destruct (decide (callback t = AttemptSave)); [|done].
    by rewrite !fmap_cons, Hd.
  - change (alter cancel (S i) (t :: ts)) with (t :: alter cancel i ts).
    rewrite !filter_cons.
    destruct (decide (callback t = AttemptSave)); [|apply IH].
    by rewrite !fmap_cons, IH.
Qed.

Lemma retry_delays_after_save (s : state) :
  retry_delays (after_save s) = retry_delays s.
Proof.
  unfold retry_delays, after_save, cleared_timeouts; simpl.
  rewrite filter_app, filter_cons, decide_False by done.
  rewrite filter_nil, app_nil_r.
  destruct (saveTimeout s); [apply retry_filter_cancel|done].
Qed.

End AttemptFacts.

(** C10, as amended.  While the page can reach its storage, a failing write
    stays inside [saveToLocalStorage]: the handler runs [cleanupStorage] on
    the store the failed write left, [saveToLocalStorage] and [saveData]
    return, and [attemptSave] takes no retry branch: it schedules no retry
    timer, shows no message and leaves [retryCount] at 0. *)
Theorem write_failure_is_contained {host : Host} (data : value) (s : state) :
  storage_allowed s = true ->
  returns (saveToLocalStorage data s) = true /\
  (throws (write_both data s) = true ->
   saveToLocalStorage data s
   = cleanupStorage (final_state (write_both data s))) /\
  returns (saveData s) = true /\
  returns (attemptSave s) = true /\
  retry_delays (final_state (attemptSave s)) = retry_delays s /\
  messages (final_state (attemptSave s)) = messages s /\
  retryCount (final_state (attemptSave s)) = 0.
Proof.
  intros Ha. split_and!.
  - by rewrite saveToLocalStorage_allowed.
  - apply saveToLocalStorage_caught.
  - by rewrite saveData_allowed.
  - by rewrite attemptSave_allowed.
  - rewrite attemptSave_allowed by done. apply (retry_delays_after_save s).
  - by rewrite attemptSave_allowed.
  - by rewrite attemptSave_allowed.
Qed.

(** ** The chain of retries *)





Section RetryFacts.
Context {host : Host}.

Lemma quiet_set_storage_allowed (a : bool) (s : state) :
  quiet (set_storage_allowed a s) <-> quiet s.
Proof. done. Qed.












End RetryFacts.



(** ** Loading *)

Section LoadFacts.
Context {host : Host}.

Lemma getItem_allowed (k : string) (s : state) :
  storage_allowed s = true -> getItem k s = Return (localStorage s !! k) s.
Proof. intros Ha. unfold getItem, bind, the_localStorage. by rewrite Ha. Qed.

Lemma getItem_denied (k : string) (s : state) :
  storage_allowed s = false -> getItem k s = Throw SecurityError s.
Proof. intros Ha. unfold getItem, bind, the_localStorage. by rewrite Ha. Qed.

Lemma loadInitialData_eq (s : state) : loadInitialData s = Return tt (seeded s).
Proof. done. Qed.

Lemma adopt_nullish (data : value) (s : state) :
  nullish data = true -> adopt data s = Throw TypeError s.
Proof. by destruct data. Qed.

Lemma adopt_eq (data : value) (s : state) :
  nullish data = false -> adopt data s = Return tt (adopted data s).
Proof. by destruct data. Qed.

Lemma nonempty_Some (o : option string) (text : string) :
  nonempty o = Some text <-> o = Some text /\ text <> "".
Proof.
  destruct o as [t|]; simpl.
  - destruct (String.eqb_spec t "") as [->|Hne].
    + split; [done|]. by intros [[= <-] ?].
    + split; [by intros [= <-]|]. by intros [[= <-] ?].
  - split; [done|]. by intros [? ?].
Qed.


(** [loadFromBackup], case by case. *)
Lemma loadFromBackup_allowed (s : state) :
  storage_allowed s = true ->
  loadFromBackup s
  = Return tt
      match nonempty (localStorage s !! BACKUP) ≫= JSON_parse with
      | Some data => if nullish data then seeded s else adopted data s
      | None => seeded s
      end.
Proof.
  intros Ha. unfold loadFromBackup, try_catch, bind at 1.
  rewrite getItem_allowed by done.
  destruct (nonempty (localStorage s !! BACKUP)) as [text|]; simpl; [|done].
  unfold parse, bind. destruct (JSON_parse text) as [data|]; simpl; [|done].
  destruct (nullish data) eqn:Hn.
  - by rewrite adopt_nullish.
  - by rewrite adopt_eq.
Qed.

Lemma loadFromBackup_denied (s : state) :
  storage_allowed s = false -> loadFromBackup s = Return tt (seeded s).
Proof.
  intros Ha. unfold loadFromBackup, try_catch, bind at 1.
  by rewrite getItem_denied.
Qed.


End LoadFacts.


(** ** Migration and the promotion of the backup *)

Section MigrateFacts.
Context {host : Host}.

Lemma migrate_loop_objects (rest : list value) :
  forall (visited : list value) (s : state),
    Forall is_object rest ->
    entries s = Arr (visited ++ rest) ->
    exists rest' s',
      migrate_loop visited rest s = Return tt s' /\
      Forall2 migrated rest rest' /\
      entries s' = Arr (visited ++ rest') /\
      projects s' = projects s /\
      localStorage s' = localStorage s /\
      messages s' = messages s.
Proof.
  induction rest as [|entry rest IH]; intros visited s Hobj He.
  - exists [], s. by split_and!.
  - apply Forall_cons in Hobj as [Hentry Hobj].
    destruct entry as [| | | | | |fields|]; try done.
    simpl. unfold bind at 1, migrate_entry, bind at 1. simpl.
    destruct (truthy (default Undefined (assoc "id" fields))) eqn:Hid.
    + unfold ret at 1, bind at 1, modify at 1.
      destruct (IH (visited ++ [Obj fields])
                  (set_entries (Arr (visited ++ Obj fields :: rest)) s) Hobj)
        as (rest' & s' & Hrun & Hrel & He' & Hp' & Hl' & Hm').
      { simpl. by rewrite <- app_assoc. }
      exists (Obj fields :: rest'), s'. split_and!; try done.
      * constructor; [|done]. exists fields. by rewrite Hid.
      * by rewrite He', <- app_assoc.
    + unfold bind at 1, generateId at 1. simpl.
      unfold bind at 1, modify at 1.
      set (fresh := make_id (Date_now (ticks s)) (Math_random_digits (ticks s))).
      set (entry' := Obj (assoc_set "id" (Str fresh) fields)).
      destruct (IH (visited ++ [entry'])
                  (set_entries (Arr (visited ++ entry' :: rest))
                     (set_ticks (S (ticks s)) s)) Hobj)
        as (rest' & s' & Hrun & Hrel & He' & Hp' & Hl' & Hm').
      { simpl. by rewrite <- app_assoc. }
      exists (entry' :: rest'), s'. split_and!; try done.
      * constructor; [|done]. exists fields. rewrite Hid. split; [done|].
        by exists fresh.
      * by rewrite He', <- app_assoc.
Qed.

End MigrateFacts.

(** C2, as amended.  The primary key is absent and the backup key holds a
    text that decodes to an object whose [projects] is an array and whose
    [entries] is an array of objects.  Then [loadData] returns and
    [projects] is the backup's.  When the storage area takes the write of
    the primary key, [entries] is the backup's after migration and the
    primary key holds the very text of the backup key.  When it refuses the
    write, [loadFromBackup] fills the collections: [entries] is the
    backup's as it is, no id is given, and the primary key stays absent. *)
Theorem loadData_promotes_backup
    {host : Host} (s : state) (text : string)
    (props : list (string * value)) (ps es : list value) :
  storage_allowed s = true ->
  localStorage s !! PRIMARY = None ->
  localStorage s !! BACKUP = Some text ->
  JSON_parse text = Some (Obj props) ->
  assoc "projects" props = Some (Arr ps) ->
  assoc "entries" props = Some (Arr es) ->
  Forall is_object es ->
  exists s',
    loadData s = Return tt s' /\
    projects s' = Arr ps /\
    localStorage s' !! BACKUP = Some text /\
    if storage_accepts (localStorage s) PRIMARY text then
      (exists es', entries s' = Arr es' /\ Forall2 migrated es es') /\
      localStorage s' = <[PRIMARY := text]> (localStorage s) /\
      localStorage s' !! PRIMARY = Some text
    else
      entries s' = Arr es /\
      localStorage s' = localStorage s /\
      localStorage s' !! PRIMARY = None.
Proof.
  intros Ha Hp Hb Hdec Hps Hes Hobj.
  assert (text <> "") as Hne.
  { intros ->. rewrite JSON_parse_empty in Hdec. done. }
  unfold loadData, bind at 1, try_catch at 1, bind at 1.
  rewrite getItem_allowed, Hp by done. simpl.
  unfold bind at 1. rewrite getItem_allowed, Hb by done.
  assert (nonempty (Some text) = Some text) as Hnon by (by apply nonempty_Some).
  rewrite Hnon.
  unfold parse, bind at 1. rewrite Hdec. unfold ret at 1.
  unfold bind at 1, setItem, bind at 1, the_localStorage. rewrite Ha.
  destruct (storage_accepts (localStorage s) PRIMARY text) eqn:Hacc.
  - unfold modify at 1, ret at 1. simpl.
    unfold bind at 1, adopt, bind at 1. simpl. rewrite Hps, Hes. simpl.
    unfold migrateOldData, bind at 1, gets at 1. simpl.
    set (s1 := set_entries (Arr es)
                 (set_projects (Arr ps)
                    (set_localStorage (<[PRIMARY:=text]> (localStorage s)) s))).
    destruct (migrate_loop_objects es [] s1 Hobj eq_refl)
      as (es' & s' & Hrun & Hrel & He' & Hp' & Hl' & Hm').
    exists s'. split_and!; try done.
    + rewrite Hl'. simpl. by rewrite lookup_insert_ne.
    + by exists es'.
    + rewrite Hl'. simpl. apply lookup_insert_eq.
  - unfold throw at 1. unfold bind at 1.
    rewrite loadFromBackup_allowed by done.
    rewrite Hb, Hnon. simpl. rewrite Hdec. simpl.
    unfold adopted. simpl. rewrite Hps, Hes. simpl.
    eexists. split; [reflexivity|]. by split_and!.
Qed.

(** ** Project ids and the lookup of an entry's project *)

Lemma base36_leading (k : nat) :
  forall (fuel : nat) (n : Z) (acc : string),
    k < fuel -> (36 ^ Z.of_nat k <= n < 36 ^ Z.of_nat (S k))%Z ->
    exists rest,
      base36_digits fuel n acc
      = String (digit_char (n / 36 ^ Z.of_nat k)) rest.
Proof.
  induction k as [|k IH]; intros fuel n acc Hf Hn.
  - destruct fuel as [|fuel]; [lia|]. simpl.
    assert ((n <? 36)%Z = true) as -> by (apply Z.ltb_lt; simpl in Hn; lia).
    exists acc. by rewrite Z.div_1_r.
  - destruct fuel as [|fuel]; [lia|]. simpl base36_digits.
    rewrite !Nat2Z.inj_succ, !Z.pow_succ_r in Hn by lia.
    assert (1 <= 36 ^ Z.of_nat k)%Z by (apply Z.lt_pred_le, Z.pow_pos_nonneg; lia).
    assert ((n <? 36)%Z = false) as -> by (apply Z.ltb_ge; nia).
    destruct (IH fuel (n / 36)%Z (String (digit_char (n mod 36)) acc))
      as [rest Hrest]; [lia| |].
    + rewrite Nat2Z.inj_succ, Z.pow_succ_r by lia. split.
      * apply Z.div_le_lower_bound; lia.
      * apply Z.div_lt_upper_bound; lia.
    + exists rest. rewrite Hrest. do 2 f_equal.
      rewrite Nat2Z.inj_succ, Z.pow_succ_r by lia.
      rewrite Z.div_div by lia. done.
Qed.

(** From 1994-10-31 to 2059-05-25 the clock, written in base 36, has eight
    digits and starts with a letter. *)
Lemma toString36_leading_letter (now : Z) :
  (10 * 36 ^ 7 <= now < 36 ^ 8)%Z ->
  exists d rest, (10 <= d < 36)%Z /\ toString36 now = String (digit_char d) rest.
Proof.
  intros Hn. unfold toString36.
  assert ((now <? 0)%Z = false) as -> by (apply Z.ltb_ge; lia).
  rewrite Z.abs_eq by lia.
  assert (39 <= Z.log2 now)%Z.
  { apply Z.log2_le_pow2; lia. }
  destruct (base36_leading 7 (S (Z.to_nat (Z.log2 now))) now "") as [rest Hr].
  - lia.
  - change (Z.of_nat 7) with 7%Z. change (Z.of_nat 8) with 8%Z. lia.
  - exists (now / 36 ^ 7)%Z, rest. split; [|exact Hr]. split.
    + apply Z.div_le_lower_bound; lia.
    + apply Z.div_lt_upper_bound; lia.
Qed.

Lemma parseInt_leading_letter (d : Z) (rest : string) :
  (10 <= d < 36)%Z -> parseInt (String (digit_char d) rest) = PrimFloat.nan.
Proof.
  intros Hd.
  assert (exists n : nat, d = (Z.of_nat n + 10)%Z /\ n < 26) as (n & -> & Hn).
  { exists (Z.to_nat (d - 10)). lia. }
  do 26 (destruct n as [|n]; [reflexivity|]). lia.
Qed.

(** [parseInt] skips the white space of Unicode, not only that of ASCII:
    here U+00A0, U+3000, U+FEFF and U+2029, by their bytes, before the
    digits; U+2026 is no white space. *)
Lemma parseInt_skips_white_space :
  let bytes := foldr (fun n text => String (ascii_of_nat n) text) "" in
  parseInt (bytes [194; 160; 227; 128; 128; 239; 187; 191; 226; 128; 169]
            +:+ " 42px") = 42%float /\
  parseInt (bytes [226; 128; 166] +:+ "42") = PrimFloat.nan.
Proof. vm_compute. by split. Qed.

(** [NaN] is equal to no number. *)
Lemma eqb_nan (x : float) : PrimFloat.eqb x PrimFloat.nan = false.
Proof.
  rewrite FloatAxioms.eqb_spec. change (Prim2SF PrimFloat.nan) with S754_nan.
  unfold SFeqb, SFcompare. by destruct (Prim2SF x).
Qed.

(** A lookup by a number finds no project whose [id] is a string. *)
Lemma find_project_number (ps : list value) (x : float) (p : value) :
  find_project ps (Num x) = inr p ->
  p = Undefined \/ exists y, get_prop p "id" = inr (Num y).
Proof.
  induction ps as [|q ps IH]; simpl; [by intros [= <-]; left|].
  destruct (get_prop q "id") as [e|id] eqn:Hid; [done|].
  destruct (strict_eq id (Num x)) eqn:Heq; [|done].
  intros [= <-]. right. destruct id; try done. by exists x0.
Qed.

(** A lookup by [NaN] finds nothing. *)
Lemma find_project_nan (ps : list value) (p : value) :
  find_project ps (Num PrimFloat.nan) = inr p -> p = Undefined.
Proof.
  induction ps as [|q ps IH]; simpl; [by intros [= <-]|].
  destruct (get_prop q "id") as [e|id]; [done|].
  destruct id; simpl; try done. by rewrite eqb_nan.
Qed.

(** ** Rendering on plain collections *)

Lemma renderable_inv (s : state) :
  renderable s = true ->
  exists ps es,
    projects s = Arr ps /\ entries s = Arr es /\
    forallb plain_project ps = true /\ forallb plain_entry es = true.
Proof.
  unfold renderable.
  destruct (projects s) as [| | | | |ps| |]; try done.
  destruct (entries s) as [| | | | |es| |]; try done.
  intros [H1 H2]%andb_true_iff. by exists ps, es.
Qed.

Lemma renderable_intro (s : state) (ps es : list value) :
  projects s = Arr ps -> entries s = Arr es ->
  forallb plain_project ps = true -> forallb plain_entry es = true ->
  renderable s = true.
Proof. intros Hp He H1 H2. unfold renderable. by rewrite Hp, He, H1, H2. Qed.

Lemma renderable_same (s s' : state) :
  projects s' = projects s -> entries s' = entries s ->
  renderable s' = renderable s.
Proof. intros Hp He. unfold renderable. by rewrite Hp, He. Qed.

Lemma plain_entries_objects (es : list value) :
  forallb plain_entry es = true -> Forall is_object es.
Proof.
  induction es as [|e es IH]; simpl; intros H; [constructor|].
  apply andb_true_iff in H as [He Hes]. constructor; [|by apply IH].
  by destruct e.
Qed.

Lemma renderable_entries (s : state) (es : list value) :
  renderable s = true -> entries s = Arr es ->
  forallb plain_entry es = true /\ Forall is_object es.
Proof.
  intros (ps & es0 & Hp & He0 & Hps & Hes)%renderable_inv He.
  assert (es0 = es) as -> by congruence.
  split; [done|by apply plain_entries_objects].
Qed.

Lemma plain_entries_filter (P : value -> Prop) `{!forall x, Decision (P x)}
    (es : list value) :
  forallb plain_entry es = true -> forallb plain_entry (filter P es) = true.
Proof.
  induction es as [|e es IH]; simpl; intros Hall; [done|].
  apply andb_true_iff in Hall as [He Hes]. rewrite filter_cons.
  destruct (decide (P e)); simpl; [|by apply IH].
  rewrite He. by apply IH.
Qed.

Lemma find_project_plain (ps : list value) (x : value) :
  forallb plain_project ps = true ->
  exists p, find_project ps x = inr p /\
            (p = Undefined \/ plain_project p = true).
Proof.
  induction ps as [|q ps IH]; simpl; intros H.
  - exists Undefined. split; [done|by left].
  - apply andb_true_iff in H as [Hq Hps].
    destruct q as [| | | | | |props|]; try done. simpl.
    destruct (strict_eq _ x).
    + exists (Obj props). split; [done|by right].
    + by apply IH.
Qed.

Lemma write_project_plain (p : value) :
  plain_project p = true -> write_project p = inr tt.
Proof.
  destruct p as [| | | | | |props|]; try done. simpl.
  intros [H1 H2]%andb_true_iff. unfold write_project, to_primitive. simpl.
  by rewrite H1, H2.
Qed.

Lemma write_found_plain (p : value) :
  p = Undefined \/ plain_project p = true ->
  (if truthy p then write_project p else inr tt) = inr tt.
Proof.
  intros [->|H]; [done|]. rewrite write_project_plain by done.
  by destruct (truthy p).
Qed.

Lemma on_date_plain (date : string) (es : list value) :
  forallb plain_entry es = true ->
  exists day, on_date date es = inr day /\ forallb plain_entry day = true.
Proof.
  induction es as [|e es IH]; simpl; intros H; [by exists []|].
  apply andb_true_iff in H as [He Hes].
  destruct (IH Hes) as (day & -> & Hday).
  destruct e as [| | | | | |props|]; try done. simpl.
  destruct (strict_eq _ _); eexists; (split; [done|]); simpl; [|done].
  apply andb_true_iff. by split.
Qed.

Lemma render_entries_plain (s : state) (ps day : list value) :
  projects s = Arr ps ->
  forallb plain_project ps = true ->
  forallb plain_entry day = true ->
  render_entries s day = inr tt.
Proof.
  intros Hp Hps. induction day as [|e day IH]; simpl; intros H; [done|].
  apply andb_true_iff in H as [He Hday].
  destruct e as [| | | | | |props|]; try done.
  unfold project_of. rewrite Hp. simpl.
  destruct (find_project_plain ps (default Undefined (assoc "projectId" props))
              Hps) as (p & -> & Hfound).
  simpl. simpl in He. apply andb_true_iff in He as [_ Hh].
  destruct (truthy p) eqn:Ht.
  - destruct Hfound as [->|Hpl]; [done|].
    rewrite write_project_plain by done. simpl.
    unfold to_primitive. rewrite Hh. simpl. by apply IH.
  - simpl. by apply IH.
Qed.

Lemma render_days_plain (s : state) (dates : list string) :
  renderable s = true -> render_days s dates = inr tt.
Proof.
  intros (ps & es & Hp & He & Hps & Hes)%renderable_inv.
  induction dates as [|date dates IH]; simpl; [done|].
  unfold day_entries. rewrite He.
  destruct (on_date_plain date es Hes) as (day & -> & Hday). simpl.
  by rewrite (render_entries_plain s ps day).
Qed.

Section StatsFacts.
Context {page : Page}.

Lemma stats_filter_plain (s : state) (es : list value) :
  forallb plain_entry es = true ->
  exists kept, stats_filter s es = inr kept /\ forallb plain_entry kept = true.
Proof.
  induction es as [|e es IH]; simpl; intros H; [by exists []|].
  apply andb_true_iff in H as [He Hes].
  destruct (IH Hes) as (kept & Hrun & Hkept).
  destruct e as [| | | | | |props|]; try done. simpl.
  pose proof He as He'. simpl in He'.
  apply andb_true_iff in He' as [[Hd _]%andb_true_iff _].
  unfold to_primitive. rewrite Hd. simpl. rewrite Hrun. simpl.
  destruct (in_period s _); eexists; (split; [done|]); simpl; [|done].
  apply andb_true_iff. by split.
Qed.

Lemma stats_keys_plain (kept : list value) :
  forallb plain_entry kept = true -> exists keys, stats_keys kept = inr keys.
Proof.
  induction kept as [|e kept IH]; simpl; intros H; [by exists []|].
  apply andb_true_iff in H as [He Hkept].
  destruct (IH Hkept) as (keys & Hrun).
  destruct e as [| | | | | |props|]; try done. simpl.
  simpl in He. apply andb_true_iff in He as [[_ Hi]%andb_true_iff Hh].
  unfold to_primitive. rewrite Hi, Hh. simpl. rewrite Hrun. simpl. by eexists.
Qed.

Lemma stats_lines_plain (s : state) (ps : list value) (keys : list string) :
  projects s = Arr ps ->
  forallb plain_project ps = true ->
  stats_lines s keys = inr tt.
Proof.
  intros Hp Hps. induction keys as [|key keys IH]; simpl; [done|].
  rewrite Hp.
  destruct (find_project_plain ps (Num (parseInt key)) Hps)
    as (p & -> & Hfound).
  simpl. by rewrite write_found_plain.
Qed.

Lemma stats_total_plain (kept : list value) :
  forallb plain_entry kept = true -> stats_total kept = inr tt.
Proof.
  induction kept as [|e kept IH]; simpl; intros H; [done|].
  apply andb_true_iff in H as [He Hkept].
  destruct e as [| | | | | |props|]; try done. simpl.
  simpl in He. apply andb_true_iff in He as [_ Hh].
  unfold to_primitive. rewrite Hh. simpl. by apply IH.
Qed.

Context {host : Host}.

(** On plain collections the two renderings complete. *)
Lemma renderCalendar_plain (s : state) :
  renderable s = true -> renderCalendar s = Return tt s.
Proof.
  intros H. unfold renderCalendar, bind, gets.
  by rewrite render_days_plain.
Qed.

Lemma updateStats_plain (s : state) :
  renderable s = true -> updateStats s = Return tt s.
Proof.
  intros (ps & es & Hp & He & Hps & Hes)%renderable_inv.
  unfold updateStats, bind at 1, gets at 1. rewrite He.
  destruct (stats_filter_plain s es Hes) as (kept & Hf & Hkept).
  destruct (stats_keys_plain kept Hkept) as (keys & Hk).
  unfold bind. rewrite Hf. simpl. rewrite Hk. simpl.
  rewrite (stats_lines_plain s ps) by done. simpl.
  by rewrite stats_total_plain.
Qed.

End StatsFacts.

Section Mutations.
Context {host : Host} {page : Page}.

Lemma saveWithRetry_returns (s : state) :
  exists s', saveWithRetry s = Return tt s' /\
             projects s' = projects s /\ entries s' = entries s.
Proof.
  unfold saveWithRetry, bind, modify.
  set (x := set_retryCount 0 s).
  destruct (storage_allowed x) eqn:Ha.
  - rewrite attemptSave_allowed by done. by eexists.
  - destruct (decide (retryCount x < maxRetries x)).
    + rewrite attemptSave_denied_retry by done. by eexists.
    + rewrite attemptSave_denied_give_up by done. by eexists.
Qed.

(** On plain collections [addProject] completes: the project is appended,
    the save is attempted, the calendar is drawn again. *)
Lemma addProject_eq (name color : string) (s : state) (ps : list value) :
  projects s = Arr ps ->
  renderable s = true ->
  exists s',
    addProject name color s = Return tt s' /\
    projects s'
    = Arr (ps ++ [Obj [("id", Str (make_id (Date_now (ticks s))
                                     (Math_random_digits (ticks s))));
                      ("name", Str name); ("color", Str color)]]) /\
    entries s' = entries s /\
    renderable s' = true.
Proof.
  intros Hp Hr.
  destruct (renderable_inv s Hr) as (ps0 & es & Hp0 & He & Hps & Hes).
  assert (ps0 = ps) as -> by congruence.
  unfold addProject, generateId, bind at 1 2 3 4, gets, modify, ret. simpl.
  rewrite Hp. simpl.
  match goal with |- context [bind saveWithRetry _ ?x] => set (s1 := x) end.
  destruct (saveWithRetry_returns s1) as (s' & Hrun & Hp' & He').
  simpl in Hp', He'.
  assert (renderable s' = true) as Hr'.
  { eapply (renderable_intro s'); [exact Hp'|rewrite He'; exact He| |exact Hes].
    rewrite forallb_app, Hps. done. }
  exists s'. unfold bind. rewrite Hrun, renderCalendar_plain by done.
  split_and!; [done|exact Hp'|exact He'|done].
Qed.

(** On plain collections [addEntry] completes: the entry is appended, the
    page is drawn again, the save is attempted, the id is returned. *)
Lemma addEntry_eq (date projectId hours : string) (s : state) (es : list value) :
  entries s = Arr es ->
  renderable s = true ->
  exists s',
    let entryId := make_id (Date_now (ticks s)) (Math_random_digits (ticks s)) in
    let entry :=
      Obj [("id", Str entryId); ("date", Str date);
           ("projectId", Num (parseInt projectId));
           ("hours", Num (parseFloat hours));
           ("createdAt", Str (Date_toISOString (S (ticks s))));
           ("synced", Bool (isOnline s))] in
    addEntry date projectId hours s = Return entryId s' /\
    entries s' = Arr (es ++ [entry]) /\
    projects s' = projects s /\
    renderable s' = true.
Proof.
  intros He Hr.
  destruct (renderable_inv s Hr) as (ps & es0 & Hp & He0 & Hps & Hes).
  assert (es0 = es) as -> by congruence.
  unfold addEntry, generateId, now_iso, bind at 1 2 3 4 5 6, gets, modify, ret.
  simpl. rewrite He. simpl.
  match goal with |- context [bind renderCalendar _ ?x] => set (s1 := x) end.
  assert (renderable s1 = true) as Hr1.
  { eapply (renderable_intro s1); [exact Hp|reflexivity|exact Hps|].
    rewrite forallb_app, Hes. done. }
  unfold bind at 1. rewrite renderCalendar_plain by done.
  unfold bind at 1. rewrite updateStats_plain by done.
  destruct (saveWithRetry_returns s1) as (s' & Hrun & Hp' & He').
  exists s'. unfold bind. rewrite Hrun.
  split_and!; [done|done|done|].
  by rewrite (renderable_same s1 s').
Qed.

End Mutations.

(** C9, as amended.  On collections that the page can draw (arrays of plain
    projects and entries), [addProject] appends a project whose [id] is the
    string of [generateId].  An entry added for it (the form control hands
    that string to [addEntry]) carries [projectId = parseInt(id)], a number:
    it is not strictly equal to the id, and the lookup of [renderCalendar]
    never yields that project.  While the clock is between 10 * 36^7 and
    36^8 milliseconds (1994 to 2059) the id starts with a letter,
    [projectId] is [NaN], and the lookup yields no project at all. *)
Theorem addProject_entry_misses_its_project
    {host : Host} {page : Page} (s : state) (name color : string)
    (ps : list value) :
  projects s = Arr ps ->
  renderable s = true ->
  let id := make_id (Date_now (ticks s)) (Math_random_digits (ticks s)) in
  let project :=
    Obj [("id", Str id); ("name", Str name); ("color", Str color)] in
  (exists s1, addProject name color s = Return tt s1 /\
              projects s1 = Arr (ps ++ [project]) /\
              renderable s1 = true) /\
  strict_eq (Str id) (Num (parseInt (option_value id))) = false /\
  (forall (s2 : state) (es : list value) (date hours : string),
     entries s2 = Arr es ->
     renderable s2 = true ->
     exists s3 entryId entry,
       addEntry date (option_value id) hours s2 = Return entryId s3 /\
       entries s3 = Arr (es ++ [entry]) /\
       get_prop entry "projectId" = inr (Num (parseInt id)) /\
       project_of s3 entry <> inr project /\
       ((10 * 36 ^ 7 <= Date_now (ticks s) < 36 ^ 8)%Z ->
        parseInt id = PrimFloat.nan /\
        forall p, project_of s3 entry = inr p -> p = Undefined)).
Proof.
  intros Hp Hr id project. split_and!.
  - destruct (addProject_eq name color s ps Hp Hr) as (s1 & H1 & H2 & _ & H3).
    by exists s1.
  - done.
  - intros s2 es date hours He Hr2.
    destruct (addEntry_eq date (option_value id) hours s2 es He Hr2)
      as (s3 & Hrun & He3 & _).
    eexists s3, _, _. split; [exact Hrun|]. split; [exact He3|].
    split; [reflexivity|]. split.
    + unfold project_of. simpl.
      destruct (projects s3) as [| | | | |ps3| |]; try done.
      intros Hfind. apply find_project_number in Hfind as [Hu|[y Hy]]; done.
    + intros Hclock.
      assert (parseInt id = PrimFloat.nan) as Hnan.
      { destruct (toString36_leading_letter _ Hclock) as (d & rest & Hd & Hs).
        unfold id, make_id. rewrite Hs. simpl.
        by apply parseInt_leading_letter. }
      split; [done|]. intros p. unfold project_of. simpl.
      unfold option_value. rewrite Hnan.
      destruct (projects s3) as [| | | | |ps3| |]; try done.
      apply find_project_nan.
Qed.

(** ** The offline cache gateway *)

Module ServiceWorkerFacts.
Import ServiceWorker.

Lemma caches_match_app_empty (cs : CacheStorage) (name key : string) :
  caches_match (cs ++ [(name, ∅)]) key = caches_match cs key.
Proof.
  induction cs as [|[n c] cs IH]; simpl; [done|].
  by destruct (c !! key).
Qed.

Lemma caches_match_open (cs : CacheStorage) (name key : string) :
  caches_match (caches_open name cs) key = caches_match cs key.
Proof.
  unfold caches_open. destruct (has_cache name cs); [done|].
  apply caches_match_app_empty.
Qed.

Lemma has_cache_app (cs : CacheStorage) (name : string) :
  has_cache name (cs ++ [(name, ∅)]) = true.
Proof.
  induction cs as [|[n c] cs IH]; simpl.
  - by rewrite String.eqb_refl.
  - rewrite IH. by destruct (String.eqb n name).
Qed.

Lemma has_cache_open (cs : CacheStorage) (name : string) :
  has_cache name (caches_open name cs) = true.
Proof.
  unfold caches_open. destruct (has_cache name cs) eqn:H; [done|].
  apply has_cache_app.
Qed.

Lemma caches_match_put (cs : CacheStorage) (name key : string) (r : Response) :
  has_cache name cs = true -> caches_match cs key = None ->
  caches_match (cache_put name key r cs) key = Some r.
Proof.
  induction cs as [|[n c] cs IH]; simpl; [done|].
  destruct (c !! key) eqn:Hc; [done|]. intros Hhas Hnone.
  destruct (String.eqb n name); simpl.
  - by rewrite lookup_insert_eq.
  - rewrite Hc. by apply IH.
Qed.

Lemma caches_match_put_other
    (cs : CacheStorage) (name key key' : string) (r : Response) :
  key' <> key ->
  caches_match (cache_put name key r cs) key' = caches_match cs key'.
Proof.
  intros Hne. induction cs as [|[n c] cs IH]; simpl; [done|].
  destruct (String.eqb n name); simpl.
  - by rewrite lookup_insert_ne.
  - by rewrite IH.
Qed.

Lemma png_is_not_static (text : string) :
  endsWith text ".png" = true -> is_static_url text = false.
Proof.
  unfold is_static_url, endsWith.
  repeat match goal with
         | |- context [String.rev (String ?c ?r)] =>
             let v := eval vm_compute in (String.rev (String c r)) in
             change (String.rev (String c r)) with v
         end.
  destruct (String.rev text) as [|c t]; [done|]. cbn [String.prefix].
  destruct (ascii_dec "g" c) as [<-|]; [|done]. intros _. reflexivity.
Qed.

Lemma js_is_static (text : string) :
  endsWith text ".js" = true -> is_static_url text = true.
Proof.
  unfold is_static_url. intros ->. by rewrite !orb_true_r.
Qed.

(** C7, as amended.  For a same-origin GET that no bucket answers, a network
    response with status 200 is handed back as it is, and it is stored (under
    the request, in the static bucket) exactly when the text of the request
    URL, query string and fragment included, ends in [.html], [.css], [.js]
    or [.json].  A URL that ends in [.png] is not stored, one that ends in
    [.js] is. *)
Theorem fetch_stores_by_url_suffix
    (self_origin base : string) (request : Request)
    (fetchResponse : Response) (cs : CacheStorage) :
  method request = "GET" ->
  origin (url request) = self_origin ->
  caches_match cs (cache_key (url request)) = None ->
  status fetchResponse = 200 ->
  let result := on_fetch self_origin base (Some fetchResponse) request cs in
  let key := cache_key (url request) in
  fst result = Resolved (Some fetchResponse) /\
  (caches_match (snd result) key = Some fetchResponse <->
   is_static_url (href (url request)) = true) /\
  (is_static_url (href (url request)) = true ->
   snd result
   = cache_put STATIC_CACHE key fetchResponse (caches_open STATIC_CACHE cs)) /\
  (is_static_url (href (url request)) = false ->
   forall k, caches_match (snd result) k = caches_match cs k) /\
  (endsWith (href (url request)) ".png" = true ->
   caches_match (snd result) key = None) /\
  (endsWith (href (url request)) ".js" = true ->
   caches_match (snd result) key = Some fetchResponse).
Proof.
  intros Hm Ho Hmiss Hs result key. subst key.
  set (key := cache_key (url request)) in *.
  assert (result
          = (Resolved (Some fetchResponse),
             if is_static_url (href (url request))
             then cache_put STATIC_CACHE key fetchResponse
                    (caches_open STATIC_CACHE cs)
             else caches_open STATIC_CACHE cs)) as ->.
  { unfold result, on_fetch. subst self_origin. fold key.
    rewrite Hm, !String.eqb_refl. simpl. rewrite Hmiss, Hs. reflexivity. }
  assert (is_static_url (href (url request)) = true ->
          caches_match
            (cache_put STATIC_CACHE key fetchResponse
               (caches_open STATIC_CACHE cs)) key = Some fetchResponse) as Hput.
  { intros _. apply caches_match_put; [apply has_cache_open|].
    by rewrite caches_match_open. }
  simpl. destruct (is_static_url (href (url request))) eqn:Hstatic.
  - split_and!.
    + done.
    + split; [done|]. intros _. by apply Hput.
    + done.
    + done.
    + intros Hpng. apply png_is_not_static in Hpng. congruence.
    + intros _. by apply Hput.
  - split_and!.
    + done.
    + rewrite caches_match_open, Hmiss. split; done.
    + done.
    + intros _ k. apply caches_match_open.
    + intros _. by rewrite caches_match_open.
    + intros Hjs. apply js_is_static in Hjs. congruence.
Qed.

(** C8.  For a same-origin GET that no bucket answers and whose network
    fetch fails, the promise given to [respondWith] is fulfilled, never
    rejected, and no bucket changes: a request whose destination is
    [document] gets what the cache holds for [./index.html], so the cached
    document [doc] when it is there; any other request gets [undefined]. *)
Theorem fetch_failure_falls_back
    (self_origin base : string) (request : Request) (cs : CacheStorage) :
  method request = "GET" ->
  origin (url request) = self_origin ->
  caches_match cs (cache_key (url request)) = None ->
  let result := on_fetch self_origin base None request cs in
  snd result = cs /\
  (destination request = "document" ->
   fst result = Resolved (caches_match cs (resolve base "./index.html")) /\
   forall doc,
     caches_match cs (resolve base "./index.html") = Some doc ->
     fst result = Resolved (Some doc)) /\
  (destination request <> "document" -> fst result = Resolved None).
Proof.
  intros Hm Ho Hmiss result.
  unfold result, on_fetch. subst self_origin.
  rewrite Hm, !String.eqb_refl. simpl. rewrite Hmiss.
  destruct (String.eqb_spec (destination request) "document") as [Hd|Hd];
    simpl; split_and!.
  - done.
  - intros _. split; [done|]. by intros doc ->.
  - done.
  - done.
  - done.
  - done.
Qed.

Lemma fetch_stores_by_url_suffix_witness :
  caches_match
    (snd (on_fetch site app_dir (Some (ok "console.log(1)"))
            (get "/app/app.js" "" "script") installed))
    "https://timesheet.example/app/app.js"
  = Some (ok "console.log(1)").
Proof.
  apply (fetch_stores_by_url_suffix site app_dir
           (get "/app/app.js" "" "script") (ok "console.log(1)") installed).
  - reflexivity.
  - reflexivity.
  - vm_compute. reflexivity.
  - reflexivity.
  - vm_compute. reflexivity.
Defined.

(** C7 as stated fails in both directions: a script fetched with a version
    query has a path that ends in [.js] and is not stored; a download whose
    path has no such ending but whose query ends in [.json] is stored. *)
Lemma versioned_script_is_not_stored :
  let script := get "/app/app.js" "?v=2" "script" in
  let export := get "/app/export" "?as=report.json" "" in
  endsWith (pathname (url script)) ".js" = true /\
  caches_match
    (snd (on_fetch site app_dir (Some (ok "console.log(1)")) script installed))
    (cache_key (url script)) = None /\
  is_static_url (pathname (url export)) = false /\
  caches_match
    (snd (on_fetch site app_dir (Some (ok "{}")) export installed))
    (cache_key (url export)) = Some (ok "{}").
Proof. vm_compute. repeat split. Qed.

Lemma fetch_failure_falls_back_witness :
  fst (on_fetch site app_dir None (get "/app/day/2026-01-15" "" "document")
         installed)
  = Resolved (Some (ok "content of https://timesheet.example/app/index.html")).
Proof.
  apply (fetch_failure_falls_back site app_dir
           (get "/app/day/2026-01-15" "" "document") installed).
  - reflexivity.
  - reflexivity.
  - vm_compute. reflexivity.
  - reflexivity.
  - vm_compute. reflexivity.
Defined.

(** The document served to a failed navigation is the cached
    [./index.html]; the cached [./404.html] is a different entry, and the
    listener never asks for it. *)
Lemma fallback_is_the_index_page :
  caches_match installed (resolve app_dir "./404.html")
  = Some (ok "content of https://timesheet.example/app/404.html") /\
  fst (on_fetch site app_dir None (get "/app/day/2026-01-15" "" "document")
         installed)
  = Resolved (Some (ok "content of https://timesheet.example/app/index.html")).
Proof. vm_compute. repeat split. Qed.

(** ** The listener, the other paths *)

(** X16.  Cache first.  A same-origin GET that a bucket answers gets the
    cached response whatever the network would give, failure included, and
    no bucket changes: what is cached is never revalidated. *)
Theorem fetch_cache_first
    (self_origin base : string) (request : Request) (cached : Response)
    (cs : CacheStorage) (net : option Response) :
  method request = "GET" ->
  origin (url request) = self_origin ->
  caches_match cs (cache_key (url request)) = Some cached ->
  on_fetch self_origin base net request cs = (Resolved (Some cached), cs).
Proof.
  intros Hm Ho Hhit. unfold on_fetch. subst self_origin.
  by rewrite Hm, !String.eqb_refl, Hhit.
Qed.

(** X17.  A request that is not a GET, or that goes to another origin, is
    left to the browser: [respondWith] is not called, the network answer is
    not looked at, no bucket changes. *)
Theorem fetch_passes_through
    (self_origin base : string) (request : Request)
    (cs : CacheStorage) (net : option Response) :
  method request <> "GET" \/ origin (url request) <> self_origin ->
  on_fetch self_origin base net request cs = (NotIntercepted, cs).
Proof.
  intros H. unfold on_fetch.
  destruct (String.eqb_spec (method request) "GET") as [Hm|Hm]; [|done].
  destruct (String.eqb_spec (origin (url request)) self_origin) as [Ho|Ho];
    [|done].
  by destruct H.
Qed.

(** X18.  Once stored, always served.  After a same-origin GET whose URL
    ends in one of the four suffixes got a 200 from the network, the same
    request is answered with that response, whatever the network gives
    later, and the buckets stay as they are. *)
Theorem fetch_stored_then_served
    (self_origin base : string) (request : Request)
    (fetchResponse : Response) (cs : CacheStorage) (later : option Response) :
  method request = "GET" ->
  origin (url request) = self_origin ->
  caches_match cs (cache_key (url request)) = None ->
  status fetchResponse = 200 ->
  is_static_url (href (url request)) = true ->
  let cs1 := snd (on_fetch self_origin base (Some fetchResponse) request cs) in
  on_fetch self_origin base later request cs1
  = (Resolved (Some fetchResponse), cs1).
Proof.
  intros Hm Ho Hmiss Hs Hstatic cs1.
  assert (caches_match cs1 (cache_key (url request)) = Some fetchResponse)
    as Hhit.
  { unfold cs1, on_fetch. subst self_origin.
    rewrite Hm, !String.eqb_refl. simpl. rewrite Hmiss, Hs, Hstatic. simpl.
    apply caches_match_put; [apply has_cache_open|].
    by rewrite caches_match_open. }
  unfold on_fetch. subst self_origin.
  by rewrite Hm, !String.eqb_refl, Hhit.
Qed.

(** X19.  A network response whose status is not 200 (a 404, a 206, a 304)
    is handed back and leaves the buckets exactly as they were: nothing is
    stored and no bucket is created. *)
Theorem fetch_other_status_not_stored
    (self_origin base : string) (request : Request)
    (fetchResponse : Response) (cs : CacheStorage) :
  method request = "GET" ->
  origin (url request) = self_origin ->
  caches_match cs (cache_key (url request)) = None ->
  status fetchResponse <> 200 ->
  on_fetch self_origin base (Some fetchResponse) request cs
  = (Resolved (Some fetchResponse), cs).
Proof.
  intros Hm Ho Hmiss Hs. unfold on_fetch. subst self_origin.
  rewrite Hm, !String.eqb_refl. simpl. rewrite Hmiss.
  by destruct (Nat.eqb_spec (status fetchResponse) 200).
Qed.

(** ** Activation and installation *)

Lemma bucket_activate_current (name : string) (cs : CacheStorage) :
  name = CACHE_NAME \/ name = STATIC_CACHE ->
  bucket name (activate cs) = bucket name cs.
Proof.
  intros Hname. unfold activate, CacheStorage.
  induction cs as [|[n c] cs IH]; [done|].
  rewrite filter_cons. simpl.
  destruct (decide (n = CACHE_NAME \/ n = STATIC_CACHE)) as [Hn|Hn]; simpl.
  - by rewrite IH.
  - rewrite IH. destruct (String.eqb_spec n name) as [->|]; [by destruct Hn|done].
Qed.

Lemma bucket_activate_other (name : string) (cs : CacheStorage) :
  name <> CACHE_NAME -> name <> STATIC_CACHE ->
  bucket name (activate cs) = None.
Proof.
  intros H1 H2. unfold activate, CacheStorage.
  induction cs as [|[n c] cs IH]; [done|].
  rewrite filter_cons. simpl.
  destruct (decide (n = CACHE_NAME \/ n = STATIC_CACHE)) as [Hn|Hn]; simpl.
  - rewrite IH. destruct (String.eqb_spec n name) as [->|]; [|done].
    by destruct Hn.
  - exact IH.
Qed.

(** X20.  [activate] deletes every bucket but the two current ones and
    leaves those two as they are; a second activation changes nothing. *)
Theorem activate_keeps_current_buckets (cs : CacheStorage) (name : string) :
  bucket name (activate cs)
  = (if decide (name = CACHE_NAME \/ name = STATIC_CACHE)
     then bucket name cs else None) /\
  activate (activate cs) = activate cs.
Proof.
  split.
  - destruct (decide (name = CACHE_NAME \/ name = STATIC_CACHE)) as [H|H].
    + by apply bucket_activate_current.
    + apply bucket_activate_other; intros ->; apply H; auto.
  - unfold activate, CacheStorage. induction cs as [|[n c] cs IH]; [done|].
    rewrite filter_cons.
    destruct (decide ((n, c).1 = CACHE_NAME \/ (n, c).1 = STATIC_CACHE)).
    + rewrite filter_cons, decide_True by done. by rewrite IH.
    + exact IH.
Qed.

Lemma has_cache_put (name bucket_name key : string) (r : Response)
    (cs : CacheStorage) :
  has_cache name (cache_put bucket_name key r cs) = has_cache name cs.
Proof.
  induction cs as [|[n c] cs IH]; simpl; [done|].
  destruct (String.eqb n bucket_name); simpl; [done|]. by rewrite IH.
Qed.

Lemma append_inj (base a b : string) : base +:+ a = base +:+ b -> a = b.
Proof. induction base as [|c base IH]; simpl; [done|]. intros [= H]. auto. Qed.

Section Install.
Variables (base : string) (fetched : string -> option Response).

(** One step of the loop of [install]. *)
Definition install_step (cs : CacheStorage) (k : string) : CacheStorage :=
  match fetched k with
  | Some r => cache_put STATIC_CACHE k r cs
  | None => cs
  end.

Lemma fold_step_other (keys : list string) (cs : CacheStorage) (k : string) :
  k ∉ keys -> caches_match (foldl install_step cs keys) k = caches_match cs k.
Proof.
  revert cs. induction keys as [|k' keys IH]; intros cs Hk; [done|].
  apply not_elem_of_cons in Hk as [Hne Hk]. simpl. rewrite IH by done.
  unfold install_step. destruct (fetched k'); [|done].
  by apply caches_match_put_other.
Qed.

Lemma fold_step_stores (keys : list string) :
  forall cs,
    NoDup keys ->
    has_cache STATIC_CACHE cs = true ->
    (forall k, k ∈ keys -> caches_match cs k = None) ->
    forall k r, k ∈ keys -> fetched k = Some r ->
                caches_match (foldl install_step cs keys) k = Some r.
Proof.
  induction keys as [|k' keys IH]; intros cs Hnd Hhas Hmiss k r Hin Hf.
  { by apply elem_of_nil in Hin. }
  apply NoDup_cons in Hnd as [Hk' Hnd]. simpl.
  apply elem_of_cons in Hin as [->|Hin].
  - rewrite fold_step_other by done. unfold install_step. rewrite Hf.
    apply caches_match_put; [done|]. apply Hmiss. by left.
  - apply IH; try done.
    + unfold install_step. destruct (fetched k'); [|done]. by rewrite has_cache_put.
    + intros k0 Hk0. unfold install_step. destruct (fetched k'); [|apply Hmiss; by right].
      rewrite caches_match_put_other; [apply Hmiss; by right|].
      intros ->. done.
Qed.

(** Every file of the list was fetched with an ok status other than 206. *)
Definition all_fetched : Prop :=
  Forall (fun file => exists r, fetched (resolve base file) = Some r /\
                                200 <= status r < 300 /\ status r <> 206)
    STATIC_FILES.

Lemma static_keys_NoDup : NoDup (resolve base <$> STATIC_FILES).
Proof.
  change (resolve base <$> STATIC_FILES)
    with ((fun rest => base +:+ rest) <$>
          [""; "index.html"; "404.html"; "manifest.json"; "favicon.ico"]).
  apply NoDup_fmap_2.
  - intros a b. apply append_inj.
  - by apply (bool_decide_unpack _).
Qed.

Lemma addable_spec (r : Response) :
  addable r = true <-> 200 <= status r < 300 /\ status r <> 206.
Proof.
  unfold addable. rewrite !andb_true_iff, negb_true_iff.
  rewrite Nat.leb_le, Nat.ltb_lt, Nat.eqb_neq. tauto.
Qed.

Lemma install_check :
  forallb (fun k => match fetched k with
                    | Some r => addable r
                    | None => false
                    end) (resolve base <$> STATIC_FILES) = true
  <-> all_fetched.
Proof.
  unfold all_fetched. rewrite forallb_forall, Forall_forall. split.
  - intros H file Hin.
    specialize (H (resolve base file)).
    destruct (fetched (resolve base file)) as [r|].
    + exists r. split; [done|]. apply addable_spec.
      apply H. apply list_elem_of_In, list_elem_of_fmap. by exists file.
    + exfalso. assert (false = true); [|done].
      apply H. apply list_elem_of_In, list_elem_of_fmap. by exists file.
  - intros H k Hin. apply list_elem_of_In, list_elem_of_fmap in Hin
      as (file & -> & Hin).
    destruct (H file Hin) as (r & -> & Hr). by apply addable_spec.
Qed.

Lemma install_stores (cs : CacheStorage) (file : string) :
  all_fetched ->
  (forall f, f ∈ STATIC_FILES -> caches_match cs (resolve base f) = None) ->
  file ∈ STATIC_FILES ->
  caches_match (install base fetched cs) (resolve base file)
  = fetched (resolve base file).
Proof.
  intros Hall Hmiss Hin. unfold install.
  destruct (forallb _ _) eqn:Hcheck.
  2: { apply install_check in Hall. congruence. }
  unfold all_fetched in Hall. rewrite Forall_forall in Hall.
  destruct (Hall file Hin) as (r & Hr & _). rewrite Hr.
  apply (fold_step_stores (resolve base <$> STATIC_FILES)).
  - apply static_keys_NoDup.
  - apply has_cache_open.
  - intros k Hk. apply list_elem_of_fmap in Hk as (f & -> & Hf).
    rewrite caches_match_open. by apply Hmiss.
  - apply list_elem_of_fmap. by exists file.
  - done.
Qed.

(** X21.  [install] stores all the files or none.  When every file of the
    list is fetched with an ok status other than 206, each is answered from
    the cache afterwards with the response that was fetched (for buckets
    that answered none of them before); when one fetch fails, is not ok or
    is a 206, the cache answers every request as it did before. *)
Theorem install_all_or_nothing (cs : CacheStorage) :
  (all_fetched ->
   (forall file, file ∈ STATIC_FILES ->
                 caches_match cs (resolve base file) = None) ->
   forall file, file ∈ STATIC_FILES ->
     caches_match (install base fetched cs) (resolve base file)
     = fetched (resolve base file)) /\
  (~ all_fetched ->
   forall key, caches_match (install base fetched cs) key = caches_match cs key).
Proof.
  split.
  - intros Hall Hmiss file Hin. by apply install_stores.
  - intros Hnot key. unfold install.
    destruct (forallb _ _) eqn:Hcheck.
    + by apply install_check in Hcheck.
    + apply caches_match_open.
Qed.


End Install.

(** ** The worker on the example site *)

(** A network that serves every file of the site. *)
Definition served (key : string) : option Response :=
  Some (ok ("content of " +:+ key)).

(** The same network with a partial response for the manifest: nothing is
    stored. *)
Definition served_partly (key : string) : option Response :=
  if String.eqb key (resolve app_dir "./manifest.json")
  then Some {| status := 206; body := "{" |}
  else served key.

Lemma partial_content_stores_nothing :
  caches_match (install app_dir served_partly [])
    (resolve app_dir "./index.html") = None /\
  caches_match (install app_dir served [])
    (resolve app_dir "./index.html")
  = Some (ok "content of https://timesheet.example/app/index.html").
Proof. vm_compute. by split. Qed.

Lemma served_all_fetched : all_fetched app_dir served.
Proof.
  unfold all_fetched.
  repeat (constructor; [eexists; split; [reflexivity|simpl; lia]|]).
  constructor.
Qed.

Lemma fetch_cache_first_witness :
  on_fetch site app_dir None (get "/app/index.html" "" "document") installed
  = (Resolved
       (Some (ok "content of https://timesheet.example/app/index.html")),
     installed).
Proof.
  apply (fetch_cache_first site app_dir (get "/app/index.html" "" "document")
           (ok "content of https://timesheet.example/app/index.html")
           installed None).
  - reflexivity.
  - reflexivity.
  - vm_compute. reflexivity.
Defined.

Lemma fetch_passes_through_witness :
  on_fetch site app_dir (Some (ok "saved"))
    {| method := "POST"; url := Url site "/app/api" "" ""; destination := "" |}
    installed
  = (NotIntercepted, installed).
Proof.
  apply (fetch_passes_through site app_dir
           {| method := "POST"; url := Url site "/app/api" "" "";
              destination := "" |} installed (Some (ok "saved"))).
  left. simpl. discriminate.
Defined.

Lemma fetch_stored_then_served_witness :
  on_fetch site app_dir None (get "/app/app.js" "" "script")
    (snd (on_fetch site app_dir (Some (ok "console.log(1)"))
            (get "/app/app.js" "" "script") installed))
  = (Resolved (Some (ok "console.log(1)")),
     snd (on_fetch site app_dir (Some (ok "console.log(1)"))
            (get "/app/app.js" "" "script") installed)).
Proof.
  apply (fetch_stored_then_served site app_dir (get "/app/app.js" "" "script")
           (ok "console.log(1)") installed None).
  - reflexivity.
  - reflexivity.
  - vm_compute. reflexivity.
  - reflexivity.
  - vm_compute. reflexivity.
Defined.

Lemma fetch_other_status_not_stored_witness :
  on_fetch site app_dir (Some {| status := 404; body := "not found" |})
    (get "/app/missing.js" "" "script") installed
  = (Resolved (Some {| status := 404; body := "not found" |}), installed).
Proof.
  apply (fetch_other_status_not_stored site app_dir
           (get "/app/missing.js" "" "script")
           {| status := 404; body := "not found" |} installed).
  - reflexivity.
  - reflexivity.
  - vm_compute. reflexivity.
  - simpl. lia.
Defined.

Lemma install_all_or_nothing_witness :
  caches_match (install app_dir served []) (resolve app_dir "./manifest.json")
  = served (resolve app_dir "./manifest.json").
Proof.
  destruct (install_all_or_nothing app_dir served []) as [Hall _].
  apply Hall.
  - exact served_all_fetched.
  - intros file _. reflexivity.
  - do 3 right. left.
Defined.


End ServiceWorkerFacts.

(** ** The persistence manager on the example pages *)



Lemma loadData_promotes_backup_witness :
  exists s',
    loadData (host := office_host) backup_only_page = Return tt s' /\
    localStorage s' !! PRIMARY = Some "<backup>".
Proof.
  destruct (loadData_promotes_backup (host := office_host) backup_only_page
              "<backup>"
              [("projects", Arr [stored_project]);
               ("entries", Arr [stored_entry]);
               ("lastSaved", Str "2026-01-14T17:05:12.440Z")]
              [stored_project] [stored_entry])
    as (s' & Hrun & _ & _ & Hif).
  - reflexivity.
  - vm_compute. reflexivity.
  - vm_compute. reflexivity.
  - vm_compute. reflexivity.
  - reflexivity.
  - reflexivity.
  - repeat constructor.
  - exists s'. split; [exact Hrun|].
    change (storage_accepts (Host := office_host)
              (localStorage backup_only_page) PRIMARY "<backup>")
      with true in Hif.
    apply Hif.
Defined.

(** C2 as stated fails: with room for no second copy, the primary key is
    still absent after [loadData], although the backup held a snapshot and
    the collections were filled from it. *)
Lemma loadData_full_store_keeps_primary_absent :
  localStorage backup_only_page !! PRIMARY = None /\
  localStorage backup_only_page !! BACKUP ≫= JSON_parse (Host := full_host)
  = Some backup_document /\
  returns (loadData (host := full_host) backup_only_page) = true /\
  projects (final_state (loadData (host := full_host) backup_only_page))
  = Arr [stored_project] /\
  entries (final_state (loadData (host := full_host) backup_only_page))
  = Arr [stored_entry] /\
  localStorage (final_state (loadData (host := full_host) backup_only_page))
    !! PRIMARY = None.
Proof. vm_compute. repeat split. Qed.






(** C10 as stated fails: when the page is denied its storage, the handler's
    own [cleanupStorage] raises, [saveToLocalStorage] and [saveData] raise,
    and [attemptSave] takes its retry branch. *)
Lemma saveToLocalStorage_raises_when_denied :
  throws (saveToLocalStorage (host := office_host) (Obj []) denied_page) = true /\
  throws (saveData (host := office_host) denied_page) = true /\
  retry_delays (final_state (attemptSave (host := office_host) denied_page))
  = [1000] /\
  retryCount (final_state (attemptSave (host := office_host) denied_page)) = 1.
Proof. vm_compute. repeat split. Qed.

Lemma write_failure_is_contained_witness :
  throws (write_both (host := full_host) (Obj []) crowded_page) = true /\
  returns (saveToLocalStorage (host := full_host) (Obj []) crowded_page) = true.
Proof.
  split.
  - vm_compute. reflexivity.
  - apply (write_failure_is_contained (host := full_host) (Obj []) crowded_page).
    reflexivity.
Defined.

(** C9 as stated fails: with the clock of 2084 the id of a new project is
    "1a0000000k3f9x2", the entry added for it has [projectId = 1], not [NaN],
    and the lookup finds the built-in project 1. *)
Lemma late_clock_entry_finds_another_project :
  let run := project_then_entry (host := late_host) (page := january_page)
               "1a0000000k3f9x2" (seeded fresh_page) in
  returns run = true /\
  project_of (final_state run)
    (Obj [("projectId", Str "1a0000000k3f9x2")])
  = inr (Obj [("id", Str "1a0000000k3f9x2"); ("name", Str "Отпуск");
              ("color", Str "#8b5cf6")]) /\
  last_projectId (final_state run) = Some (Num 1) /\
  last_rendered (final_state run)
  = Some (Obj [("id", Num 1); ("name", Str "Разработка");
               ("color", Str "#3b82f6")]).
Proof. vm_compute. repeat split. Qed.

Lemma addProject_entry_misses_its_project_witness :
  exists s1,
    addProject (host := office_host) (page := january_page)
      "Отпуск" "#8b5cf6" (seeded fresh_page)
    = Return tt s1 /\
    project_of s1 (Obj [("projectId", Str "mkf7y5c0k3f9x2")])
    = inr (Obj [("id", Str "mkf7y5c0k3f9x2"); ("name", Str "Отпуск");
                ("color", Str "#8b5cf6")]) /\
    strict_eq (Str "mkf7y5c0k3f9x2")
      (Num (parseInt (option_value "mkf7y5c0k3f9x2"))) = false.
Proof.
  destruct (addProject_entry_misses_its_project (host := office_host)
              (page := january_page) (seeded fresh_page) "Отпуск" "#8b5cf6"
              [Obj [("id", Num 1); ("name", Str "Разработка"); ("color", Str "#3b82f6")];
               Obj [("id", Num 2); ("name", Str "Тестирование"); ("color", Str "#ef4444")];
               Obj [("id", Num 3); ("name", Str "Дизайн"); ("color", Str "#10b981")];
               Obj [("id", Num 4); ("name", Str "Встречи"); ("color", Str "#f59e0b")]])
    as ((s1 & Hrun & Hps & _) & Hneq & _).
  - reflexivity.
  - reflexivity.
  - exists s1. split; [exact Hrun|]. split; [|exact Hneq].
    unfold project_of. rewrite Hps. vm_compute. reflexivity.
Defined.

(** * Part III: the rest of the code *)

(** ** Migration, once more *)

Lemma base36_digits_nonempty (fuel : nat) (n : Z) (acc : string) :
  (0 < fuel \/ acc <> "") -> base36_digits fuel n acc <> "".
Proof.
  revert n acc. induction fuel as [|fuel IH]; intros n acc H; simpl.
  - destruct H as [H|H]; [lia|done].
  - destruct (n <? 36)%Z; [done|]. apply IH. by right.
Qed.

Lemma make_id_nonempty (now : Z) (digits : string) : make_id now digits <> "".
Proof.
  unfold make_id, toString36.
  destruct (now <? 0)%Z; [done|].
  pose proof (base36_digits_nonempty (S (Z.to_nat (Z.log2 (Z.abs now))))
                (Z.abs now) "") as H.
  destruct (base36_digits _ _ _); [|done]. exfalso. apply H; [left; lia|done].
Qed.

Lemma assoc_assoc_set (k : string) (v : value) (ps : list (string * value)) :
  assoc k (assoc_set k v ps) = Some v.
Proof.
  induction ps as [|[k' v'] ps IH]; simpl.
  - by rewrite String.eqb_refl.
  - destruct (String.eqb k k') eqn:E; simpl; rewrite ?String.eqb_refl, ?E; done.
Qed.

Lemma set_entries_id (s : state) : set_entries (entries s) s = s.
Proof. apply state_eta. Qed.

Section MigrateAgain.
Context {host : Host}.

(** Entries that have an id are left alone, and so is the state. *)
Lemma migrate_loop_has_id (rest : list value) :
  forall (visited : list value) (s : state),
    Forall has_id rest ->
    entries s = Arr (visited ++ rest) ->
    migrate_loop visited rest s = Return tt s.
Proof.
  induction rest as [|entry rest IH]; intros visited s Hid He; [done|].
  apply Forall_cons in Hid as [(fields & -> & Hid) Hrest].
  simpl. unfold bind at 1, migrate_entry, bind at 1. simpl. rewrite Hid.
  unfold ret at 1, bind at 1, modify at 1.
  rewrite <- He, set_entries_id. apply IH; [done|].
  by rewrite He, <- app_assoc.
Qed.

(** After the loop every entry has an id. *)
Lemma migrate_loop_gives_ids (rest : list value) :
  forall (visited : list value) (s : state),
    Forall is_object rest ->
    entries s = Arr (visited ++ rest) ->
    exists rest' s',
      migrate_loop visited rest s = Return tt s' /\
      Forall has_id rest' /\
      length rest' = length rest /\
      entries s' = Arr (visited ++ rest').
Proof.
  induction rest as [|entry rest IH]; intros visited s Hobj He.
  - exists [], s. by split_and!.
  - apply Forall_cons in Hobj as [Hentry Hobj].
    destruct entry as [| | | | | |fields|]; try done.
    simpl. unfold bind at 1, migrate_entry, bind at 1. simpl.
    destruct (truthy (default Undefined (assoc "id" fields))) eqn:Hid.
    + unfold ret at 1, bind at 1, modify at 1.
      destruct (IH (visited ++ [Obj fields])
                  (set_entries (Arr (visited ++ Obj fields :: rest)) s) Hobj)
        as (rest' & s' & Hrun & Hids & Hlen & He').
      { simpl. by rewrite <- app_assoc. }
      exists (Obj fields :: rest'), s'. split_and!; try done.
      * constructor; [|done]. by exists fields.
      * simpl. by rewrite Hlen.
      * by rewrite He', <- app_assoc.
    + unfold bind at 1, generateId at 1. simpl.
      unfold bind at 1, modify at 1.
      set (fresh := make_id (Date_now (ticks s)) (Math_random_digits (ticks s))).
      set (entry' := Obj (assoc_set "id" (Str fresh) fields)).
      destruct (IH (visited ++ [entry'])
                  (set_entries (Arr (visited ++ entry' :: rest))
                     (set_ticks (S (ticks s)) s)) Hobj)
        as (rest' & s' & Hrun & Hids & Hlen & He').
      { simpl. by rewrite <- app_assoc. }
      exists (entry' :: rest'), s'. split_and!; try done.
      * constructor; [|done]. eexists. split; [done|].
        rewrite assoc_assoc_set. simpl.
        pose proof (make_id_nonempty (Date_now (ticks s))
                      (Math_random_digits (ticks s))) as Hne.
        fold fresh in Hne. by destruct (String.eqb_spec fresh "").
      * simpl. by rewrite Hlen.
      * by rewrite He', <- app_assoc.
Qed.

End MigrateAgain.

(** X1.  On an array of entry objects [migrateOldData] returns, keeps the
    number of entries, and a second run right after it changes nothing: not
    an id, not an entry, not the count of ids drawn from the clock. *)
Theorem migrateOldData_idempotent
    {host : Host} (s : state) (es : list value) :
  entries s = Arr es ->
  Forall is_object es ->
  exists s1 es1,
    migrateOldData s = Return tt s1 /\
    entries s1 = Arr es1 /\
    length es1 = length es /\
    Forall has_id es1 /\
    migrateOldData s1 = Return tt s1.
Proof.
  intros He Hobj.
  destruct (migrate_loop_gives_ids es [] s Hobj He)
    as (es1 & s1 & Hrun & Hids & Hlen & He1).
  exists s1, es1. split_and!; try done.
  - unfold migrateOldData, bind, gets. by rewrite He.
  - unfold migrateOldData, bind, gets. rewrite He1.
    by apply (migrate_loop_has_id es1 []).
Qed.

(** ** Loading, the other paths *)

Section LoadMore.
Context {host : Host}.

Lemma parsed_nonempty (text : string) (data : value) :
  JSON_parse text = Some data -> nonempty (Some text) = Some text.
Proof.
  intros Hdec. apply nonempty_Some. split; [done|].
  intros ->. by rewrite JSON_parse_empty in Hdec.
Qed.

(** With a primary text that decodes, [loadData] goes on with what it
    decoded and looks at nothing else. *)
Lemma loadData_primary_parsed (s : state) (text : string) (data : value) :
  storage_allowed s = true ->
  localStorage s !! PRIMARY = Some text ->
  JSON_parse text = Some data ->
  loadData s
  = (if truthy data then adopt data >> migrateOldData else loadInitialData) s.
Proof.
  intros Ha Hp Hdec.
  unfold loadData, bind at 1, try_catch at 1, bind at 1.
  rewrite getItem_allowed, Hp by done.
  rewrite (parsed_nonempty text data Hdec).
  unfold parse, bind at 1. rewrite Hdec. reflexivity.
Qed.

Lemma loadData_nothing_stored (s : state) :
  storage_allowed s = true ->
  nonempty (localStorage s !! PRIMARY) = None ->
  nonempty (localStorage s !! BACKUP) = None ->
  loadData s = Return tt (seeded s).
Proof.
  intros Ha Hp Hb.
  unfold loadData, bind at 1, try_catch at 1, bind at 1.
  rewrite getItem_allowed, Hp by done.
  unfold bind at 1. rewrite getItem_allowed, Hb by done. reflexivity.
Qed.

Lemma loadData_denied (s : state) :
  storage_allowed s = false -> loadData s = Return tt (seeded s).
Proof.
  intros Ha.
  unfold loadData, bind at 1, try_catch at 1, bind at 1.
  rewrite getItem_denied by done. unfold bind at 1.
  by rewrite loadFromBackup_denied.
Qed.

End LoadMore.

(** X2.  [loadData] can raise.  When the primary text decodes to an object
    whose [entries] is truthy and not an array, the [TypeError] of
    [migrateOldData] leaves [loadData] (the call is outside its [try]), with
    [projects] already taken from the snapshot and the non-array left in
    [entries]. *)
Theorem loadData_raises_on_odd_entries
    {host : Host} (s : state) (text : string)
    (props : list (string * value)) (e : value) :
  storage_allowed s = true ->
  localStorage s !! PRIMARY = Some text ->
  JSON_parse text = Some (Obj props) ->
  assoc "entries" props = Some e ->
  truthy e = true ->
  (forall items, e <> Arr items) ->
  loadData s
  = Throw TypeError
      (set_entries e
         (set_projects
            (or_else (default Undefined (assoc "projects" props)) (Arr [])) s)).
Proof.
  intros Ha Hp Hdec He Ht Hna.
  rewrite (loadData_primary_parsed s text (Obj props)) by done. simpl.
  unfold bind at 1, adopt, bind at 1. simpl. rewrite He. simpl.
  assert (or_else e (Arr []) = e) as -> by (unfold or_else; by rewrite Ht).
  unfold migrateOldData, bind, gets. simpl.
  destruct e; try done. by destruct (Hna items).
Qed.

(** X3.  On the first run (neither key holds a non-empty text), and when the
    page is denied its storage, [loadData] returns with the four built-in
    projects and no entry, and writes nothing. *)
Theorem loadData_seeds_defaults {host : Host} (s : state) :
  storage_allowed s = false \/
  (nonempty (localStorage s !! PRIMARY) = None /\
   nonempty (localStorage s !! BACKUP) = None) ->
  exists s',
    loadData s = Return tt s' /\
    projects s' = default_projects /\
    entries s' = Arr [] /\
    localStorage s' = localStorage s /\
    messages s' = messages s.
Proof.
  intros H. exists (seeded s).
  destruct (storage_allowed s) eqn:Ha.
  - destruct H as [H|[Hp Hb]]; [done|].
    by rewrite loadData_nothing_stored.
  - by rewrite loadData_denied.
Qed.

(** X4.  The primary snapshot wins and the load writes nothing.  When the
    primary text decodes to an object with an array of projects and an array
    of entry objects, the collections come from it whatever the backup key
    holds, and the store is left as it was: the ids that migration gives are
    not written back. *)
Theorem loadData_primary_wins
    {host : Host} (s : state) (text : string)
    (props : list (string * value)) (ps es : list value) :
  storage_allowed s = true ->
  localStorage s !! PRIMARY = Some text ->
  JSON_parse text = Some (Obj props) ->
  assoc "projects" props = Some (Arr ps) ->
  assoc "entries" props = Some (Arr es) ->
  Forall is_object es ->
  exists s' es',
    loadData s = Return tt s' /\
    projects s' = Arr ps /\
    entries s' = Arr es' /\
    Forall2 migrated es es' /\
    localStorage s' = localStorage s /\
    messages s' = messages s.
Proof.
  intros Ha Hp Hdec Hps Hes Hobj.
  rewrite (loadData_primary_parsed s text (Obj props)) by done. simpl.
  unfold bind at 1, adopt, bind at 1. simpl. rewrite Hps, Hes. simpl.
  unfold migrateOldData, bind at 1, gets at 1. simpl.
  destruct (migrate_loop_objects es []
              (set_entries (Arr es) (set_projects (Arr ps) s)) Hobj eq_refl)
    as (es' & s' & Hrun & Hrel & He' & Hp' & Hl' & Hm').
  exists s', es'. by split_and!.
Qed.

(** X5.  Save, then load.  When the two writes go through and the host
    decodes the saved text to the object that was encoded, a [loadData] after
    [saveData] gives back the same [projects] and the same [entries] (arrays,
    every entry with an id), and writes nothing. *)
Theorem save_then_load_round_trip
    {host : Host} (s : state) (ps es : list value) :
  let data := snapshot s (Date_toISOString (ticks s)) in
  returns (write_both data s) = true ->
  JSON_parse (JSON_stringify data) = Some data ->
  projects s = Arr ps ->
  entries s = Arr es ->
  Forall has_id es ->
  exists s1 s2,
    saveData s = Return tt s1 /\
    loadData s1 = Return tt s2 /\
    projects s2 = projects s /\
    entries s2 = entries s /\
    localStorage s2 = localStorage s1.
Proof.
  intros data Hok Hdec Hps Hes Hids. subst data.
  apply write_both_returns in Hok as (Ha & A1 & A2).
  exists (after_save s). rewrite saveData_allowed by done.
  set (text := JSON_stringify (snapshot s (Date_toISOString (ticks s)))) in *.
  assert (localStorage (after_save s) !! PRIMARY = Some text) as Hp.
  { simpl. unfold saved_store. fold text. rewrite A1, A2.
    rewrite lookup_insert_ne by done. apply lookup_insert_eq. }
  rewrite (loadData_primary_parsed (after_save s) text _ Ha Hp Hdec).
  simpl. unfold bind at 1, adopt, bind at 1. simpl. rewrite Hps, Hes. simpl.
  unfold migrateOldData, bind at 1, gets at 1. simpl.
  match goal with |- context [migrate_loop [] es ?x] =>
    rewrite (migrate_loop_has_id es [] x Hids eq_refl) end.
  eexists. split_and!; done.
Qed.

(** ** Deleting an entry *)

Lemma without_id_filter (entryId : string) (items : list value) :
  Forall is_object items ->
  without_id entryId items
  = inr (filter (fun entry => id_is entryId entry = false) items).
Proof.
  induction items as [|entry items IH]; intros Hobj; [done|].
  apply Forall_cons in Hobj as [Hentry Hobj].
  destruct entry as [| | | | | |fields|]; try done.
  simpl. rewrite (IH Hobj). simpl. rewrite filter_cons. unfold id_is. simpl.
  destruct (strict_eq (default Undefined (assoc "id" fields)) (Str entryId));
    [by rewrite decide_False|by rewrite decide_True].
Qed.

(** On plain collections [deleteEntry] completes: the entries are
    filtered, the save is attempted, the page is drawn again. *)
Lemma deleteEntry_eq
    {host : Host} {page : Page} (s : state) (entryId : string)
    (es : list value) :
  entries s = Arr es ->
  renderable s = true ->
  exists s',
    deleteEntry entryId s = Return tt s' /\
    entries s' = Arr (filter (fun entry => id_is entryId entry = false) es) /\
    projects s' = projects s /\
    renderable s' = true.
Proof.
  intros He Hr.
  destruct (renderable_inv s Hr) as (ps & es0 & Hp & He0 & Hps & Hes).
  assert (es0 = es) as -> by congruence.
  pose proof (plain_entries_objects es Hes) as Hobj.
  unfold deleteEntry, bind at 1, gets at 1. rewrite He.
  unfold bind at 1. rewrite (without_id_filter entryId es Hobj). simpl.
  unfold bind at 1, modify at 1.
  match goal with |- context [bind saveWithRetry _ ?x] => set (s1 := x) end.
  destruct (saveWithRetry_returns s1) as (s' & Hrun & Hp' & He').
  assert (renderable s' = true) as Hr'.
  { eapply (renderable_intro s'); [rewrite Hp'; exact Hp|exact He'|exact Hps|].
    by apply plain_entries_filter. }
  exists s'. unfold bind. rewrite Hrun.
  rewrite renderCalendar_plain, updateStats_plain by done.
  split_and!; [done|exact He'|exact Hp'|done].
Qed.

(** X6.  On collections that the page can draw, [deleteEntry] completes,
    whatever the save does, and keeps, in their order, exactly the entries
    whose [id] is not strictly equal to the given string; the projects are
    not touched. *)
Theorem deleteEntry_removes_matching
    {host : Host} {page : Page} (s : state) (entryId : string)
    (es : list value) :
  entries s = Arr es ->
  renderable s = true ->
  exists s',
    deleteEntry entryId s = Return tt s' /\
    entries s' = Arr (filter (fun entry => id_is entryId entry = false) es) /\
    projects s' = projects s.
Proof.
  intros He Hr.
  destruct (deleteEntry_eq s entryId es He Hr) as (s' & H1 & H2 & H3 & _).
  by exists s'.
Qed.

(** X7.  The delete button hands [deleteEntry] a string, and the comparison
    is strict: an entry whose [id] is not a string (a number kept from older
    data, for one) is never deleted. *)
Theorem deleteEntry_keeps_other_types
    {host : Host} {page : Page} (s : state) (entryId : string)
    (es : list value) (entry : value) :
  entries s = Arr es ->
  renderable s = true ->
  entry ∈ es ->
  (forall text, get_prop entry "id" <> inr (Str text)) ->
  exists s' kept,
    deleteEntry entryId s = Return tt s' /\
    entries s' = Arr kept /\
    entry ∈ kept.
Proof.
  intros He Hr Hin Hid.
  destruct (deleteEntry_eq s entryId es He Hr) as (s' & H1 & H2 & _).
  eexists s', _. split; [exact H1|]. split; [exact H2|].
  apply list_elem_of_filter. split; [|done].
  unfold id_is. destruct (get_prop entry "id") as [e|id] eqn:E; [done|].
  destruct id; try done. by destruct (Hid s0).
Qed.

(** X8.  Add, then delete.  On collections that the page can draw, the id
    [addEntry] returns, given to [deleteEntry], takes the new entry out
    again and leaves the entries that were there, provided none of them has
    that very id. *)
Theorem addEntry_then_deleteEntry
    {host : Host} {page : Page} (s : state) (date projectId hours : string)
    (es : list value) :
  entries s = Arr es ->
  renderable s = true ->
  Forall (fun entry =>
            id_is (make_id (Date_now (ticks s)) (Math_random_digits (ticks s)))
              entry = false) es ->
  exists entryId s1 s2,
    addEntry date projectId hours s = Return entryId s1 /\
    deleteEntry entryId s1 = Return tt s2 /\
    entries s2 = Arr es.
Proof.
  intros He Hr Hfresh.
  destruct (addEntry_eq date projectId hours s es He Hr)
    as (s1 & Hadd & He1 & _ & Hr1).
  set (fresh := make_id (Date_now (ticks s)) (Math_random_digits (ticks s))) in *.
  match type of He1 with _ = Arr (es ++ [?e]) => set (entry := e) in * end.
  destruct (deleteEntry_eq s1 fresh (es ++ [entry]) He1 Hr1)
    as (s2 & Hdel & He2 & _).
  exists fresh, s1, s2. split; [exact Hadd|]. split; [exact Hdel|].
  rewrite He2, filter_app, filter_cons, filter_nil.
  rewrite decide_False.
  - rewrite app_nil_r. f_equal. clear -Hfresh.
    induction es as [|e es IH]; [done|].
    apply Forall_cons in Hfresh as [H1 H2].
    rewrite filter_cons, decide_True by done. by rewrite IH.
  - unfold entry, id_is. simpl. by rewrite String.eqb_refl.
Qed.

(** ** Going offline and online *)

(** X9.  On collections that the page can draw, an entry added while
    offline is stamped [synced: false], and nothing ever sets it: the
    [online] listener that follows sets the flag, shows its message, and
    leaves the entries, the projects and the store as they were. *)
Theorem offline_entry_stays_unsynced
    {host : Host} {page : Page} (s : state) (date projectId hours : string)
    (es : list value) :
  entries s = Arr es ->
  renderable s = true ->
  exists s1 entryId s2 entry s3,
    on_offline s = Return tt s1 /\
    addEntry date projectId hours s1 = Return entryId s2 /\
    entries s2 = Arr (es ++ [entry]) /\
    get_prop entry "synced" = inr (Bool false) /\
    on_online s2 = Return tt s3 /\
    isOnline s3 = true /\
    entries s3 = entries s2 /\
    projects s3 = projects s2 /\
    localStorage s3 = localStorage s2.
Proof.
  intros He Hr.
  set (s1 := set_timeouts
               (timeouts s ++ [Timer 3000 RemoveMessage Pending])
               (set_messages (messages s ++ [("Работа в офлайн-режиме", "warning")])
                  (set_isOnline false s))).
  assert (on_offline s = Return tt s1) as H1 by reflexivity.
  destruct (addEntry_eq date projectId hours s1 es He Hr)
    as (s2 & H2 & He2 & _).
  eexists s1, _, s2, _, _. split; [exact H1|]. split; [exact H2|].
  split; [exact He2|]. split; [reflexivity|].
  unfold on_online, syncData, showMessage, setTimeout, bind, modify, gets, ret.
  simpl. by split_and!.
Qed.

(** ** Changing the month *)

(** X10.  From a month between 0 and 11, [changeMonth(1)] and
    [changeMonth(-1)] move the view by exactly one month, carry into the
    year at the ends, keep the month between 0 and 11, and undo each
    other. *)
Theorem changeMonth_steps (c : calendar) (direction : Z) :
  (0 <= currentMonth c <= 11)%Z ->
  direction = 1%Z \/ direction = (-1)%Z ->
  (0 <= currentMonth (changeMonth direction c) <= 11)%Z /\
  month_index (changeMonth direction c) = (month_index c + direction)%Z /\
  changeMonth (- direction) (changeMonth direction c) = c.
Proof.
  destruct c as [m y]. unfold month_index, changeMonth. simpl.
  intros Hm [-> | ->];
    repeat (simpl;
            match goal with
            | |- context [(?a <? ?b)%Z] => destruct (Z.ltb_spec a b)
            end);
    simpl; split_and!; try lia; f_equal; lia.
Qed.

(** ** The calendar cell and the modal of a day *)

Lemma get_prop_error (v : value) (name : string) (e : exn) :
  get_prop v name = inl e -> e = TypeError.
Proof. destruct v; simpl; congruence. Qed.

Lemma get_prop_object (v : value) (name : string) :
  is_object v -> exists x, get_prop v name = inr x.
Proof. destruct v; try done. simpl. eauto. Qed.


Lemma find_project_error (ps : list value) (pid : value) (e : exn) :
  find_project ps pid = inl e -> e = TypeError.
Proof.
  induction ps as [|p ps IH]; simpl; [done|].
  destruct (get_prop p "id") as [e'|id] eqn:E.
  - intros [= <-]. by apply get_prop_error in E.
  - destruct (strict_eq id pid); [done|apply IH].
Qed.

Lemma project_of_error (s : state) (entry : value) (e : exn) :
  project_of s entry = inl e -> e = TypeError.
Proof.
  unfold project_of.
  destruct (projects s); try (by intros [= <-]);
    destruct (get_prop entry "projectId"); try (by intros [= <-]).
  apply find_project_error.
Qed.

Lemma on_date_filter (date : string) (items : list value) :
  Forall is_object items ->
  on_date date items
  = inr (filter (fun entry => date_is date entry = true) items).
Proof.
  induction items as [|entry items IH]; intros Hobj; [done|].
  apply Forall_cons in Hobj as [Hentry Hobj].
  destruct entry as [| | | | | |fields|]; try done.
  simpl. rewrite (IH Hobj). simpl. rewrite filter_cons. unfold date_is. simpl.
  destruct (strict_eq (default Undefined (assoc "date" fields)) (Str date));
    [by rewrite decide_True|by rewrite decide_False].
Qed.

(** One entry without a project makes the list of the modal raise. *)
Lemma modal_rows_dangling (s : state) (l : list value) (entry : value) :
  Forall is_object l ->
  entry ∈ l ->
  (forall p, project_of s entry = inr p -> p = Undefined) ->
  modal_rows s l = inl TypeError.
Proof.
  intros Hobj Hin Hdang. induction l as [|h l IH]; [by apply elem_of_nil in Hin|].
  apply Forall_cons in Hobj as [Hh Hobj]. simpl.
  destruct (project_of s h) as [e|p] eqn:Hp; simpl.
  { by apply project_of_error in Hp as ->. }
  destruct (get_prop p "color") as [e|color] eqn:Hc; simpl.
  { by apply get_prop_error in Hc as ->. }
  assert (exists name, get_prop p "name" = inr name) as [name ->].
  { destruct p; try done; simpl; eauto. }
  destruct (get_prop_object h "hours" Hh) as [hours ->].
  destruct (get_prop_object h "id" Hh) as [id ->]. simpl.
  apply elem_of_cons in Hin as [->|Hin].
  - by rewrite (Hdang p Hp) in Hc.
  - by rewrite (IH Hobj Hin).
Qed.


Lemma Forall_filter_keep {A} (P : A -> Prop) (q : A -> bool) (l : list A) :
  Forall P l -> Forall P (filter (fun y => q y = true) l).
Proof.
  rewrite !Forall_forall. intros H x Hx.
  apply list_elem_of_filter in Hx as [_ Hx]. by apply H.
Qed.



(** X12.  On collections that the page can draw, a project is added and
    the form of the modal is submitted for it (clock between 10 * 36^7 and
    36^8 ms).  [addEntry] runs, so the entry is in [entries] with
    [projectId] [NaN], and the [showDayModal] that the handler calls next
    raises a [TypeError]: the handler does not complete. *)
Theorem submit_for_new_project_raises
    {host : Host} {page : Page} (s : state) (name color date hours : string)
    (ps es : list value) :
  projects s = Arr ps ->
  entries s = Arr es ->
  renderable s = true ->
  hours <> "" ->
  (10 * 36 ^ 7 <= Date_now (ticks s) < 36 ^ 8)%Z ->
  let id := make_id (Date_now (ticks s)) (Math_random_digits (ticks s)) in
  exists s1 s2 entry,
    addProject name color s = Return tt s1 /\
    on_submit_entry date (option_value id) hours s1 = Throw TypeError s2 /\
    entries s2 = Arr (es ++ [entry]) /\
    get_prop entry "projectId" = inr (Num PrimFloat.nan).
Proof.
  intros Hp He Hr Hh Hclock id.
  assert (parseInt id = PrimFloat.nan) as Hnan.
  { destruct (toString36_leading_letter _ Hclock) as (d & rest & Hd & Hs).
    unfold id, make_id. rewrite Hs. simpl. by apply parseInt_leading_letter. }
  destruct (addProject_eq name color s ps Hp Hr) as (s1 & H1 & Hp1 & He1 & Hr1).
  rewrite He in He1.
  destruct (addEntry_eq date (option_value id) hours s1 es He1 Hr1)
    as (s2 & H2 & He2 & Hp2 & Hr2).
  match type of He2 with _ = Arr (es ++ [?e]) => set (entry := e) in * end.
  exists s1, s2, entry. split; [done|]. split; [|split; [done|]].
  2: { simpl. unfold option_value. by rewrite Hnan. }
  unfold on_submit_entry.
  assert (String.eqb (option_value id) "" = false) as ->.
  { apply String.eqb_neq, make_id_nonempty. }
  assert (String.eqb hours "" = false) as -> by (by apply String.eqb_neq).
  simpl. unfold bind at 1. rewrite H2.
  unfold showDayModal, bind at 1, gets at 1. unfold bind at 1, modal_list.
  destruct (renderable_entries s2 _ Hr2 He2) as [_ Hobj2].
  unfold day_entries. rewrite He2, (on_date_filter _ _ Hobj2). simpl.
  rewrite (modal_rows_dangling s2 _ entry); [done| | |].
  - by apply Forall_filter_keep.
  - apply list_elem_of_filter. split.
    + unfold date_is, entry. simpl. by rewrite String.eqb_refl.
    + apply elem_of_app. right. by apply list_elem_of_singleton.
  - intros p. unfold project_of. rewrite Hp2, Hp1. simpl.
    unfold option_value. rewrite Hnan.
    apply find_project_nan.
Qed.

(** ** The debounce of the deferred save *)

Lemma indices_from_spec {A} (p : A -> bool) (l : list A) (k i : nat) :
  i ∈ indices_from p l k <->
  exists j x, i = k + j /\ l !! j = Some x /\ p x = true.
Proof.
  revert k. induction l as [|h l IH]; intros k; simpl.
  - split; [by intros H%elem_of_nil|]. by intros (j & x & _ & H & _).
  - assert (i ∈ indices_from p l (S k) <->
            exists j x, i = k + S j /\ l !! j = Some x /\ p x = true) as IH'.
    { rewrite IH. split; intros (j & x & -> & H1 & H2); exists j, x;
        (split; [lia|done]). }
    destruct (p h) eqn:Hh.
    + rewrite elem_of_cons, IH'. split.
      * intros [->|(j & x & -> & H1 & H2)].
        -- exists 0, h. split; [lia|done].
        -- by exists (S j), x.
      * intros ([|j] & x & -> & H1 & H2).
        -- left. lia.
        -- right. by exists j, x.
    + rewrite IH'. split.
      * intros (j & x & -> & H1 & H2). by exists (S j), x.
      * intros ([|j] & x & -> & H1 & H2).
        -- simpl in H1. injection H1 as ->. congruence.
        -- by exists j, x.
Qed.

Lemma indices_from_app_last {A} (p : A -> bool) (l : list A) (x : A) (k : nat) :
  indices_from p (l ++ [x]) k
  = indices_from p l k ++ (if p x then [k + length l] else []).
Proof.
  revert k. induction l as [|h l IH]; intros k; simpl.
  - rewrite Nat.add_0_r. by destruct (p x).
  - rewrite IH. replace (S k + length l) with (k + S (length l)) by lia.
    by destruct (p h).
Qed.

Lemma indices_from_none {A} (p : A -> bool) (l : list A) (k : nat) :
  (forall j x, l !! j = Some x -> p x = false) -> indices_from p l k = [].
Proof.
  intros H. destruct (indices_from p l k) as [|i rest] eqn:E; [done|].
  assert (i ∈ indices_from p l k) as Hin by (rewrite E; by left).
  apply indices_from_spec in Hin as (j & x & _ & H1 & H2).
  rewrite (H j x H1) in H2. done.
Qed.

Lemma indices_from_increasing {A} (p : A -> bool) (l : list A) (k : nat) :
  StronglySorted lt (indices_from p l k) /\
  Forall (fun i => k <= i) (indices_from p l k).
Proof.
  revert k. induction l as [|h l IH]; intros k; simpl.
  - split; constructor.
  - destruct (IH (S k)) as [Hs Hf].
    assert (Forall (fun i => k <= i) (indices_from p l (S k))) as Hf'
      by (eapply Forall_impl; [exact Hf|]; simpl; lia).
    destruct (p h); [|done]. split.
    + constructor; [done|]. eapply Forall_impl; [exact Hf|]. simpl. lia.
    + by constructor.
Qed.

(** Under [debounced] at most one timer of the deferred save is pending. *)
Lemma debounced_at_most_one (s : state) :
  debounced s -> length (pending_deferred s) <= 1.
Proof.
  unfold debounced, pending_deferred.
  destruct (indices_from_increasing is_pending_deferred (timeouts s) 0)
    as [Hs _].
  destruct (indices_from _ _ _) as [|a [|b rest]]; simpl; [lia..|].
  intros H. apply Forall_cons in H as [Ha H]. apply Forall_cons in H as [Hb _].
  apply StronglySorted_inv in Hs as [_ Hlt].
  apply Forall_cons in Hlt as [Hlt _]. rewrite Ha in Hb. injection Hb as ->. lia.
Qed.

Section Debounce.
Context {host : Host}.

Lemma cleared_has_no_pending (s : state) :
  debounced s ->
  indices_from is_pending_deferred (cleared_timeouts s) 0 = [].
Proof.
  unfold debounced, pending_deferred. rewrite Forall_forall. intros Hd.
  apply indices_from_none. intros j x Hj.
  destruct (is_pending_deferred x) eqn:Hx; [exfalso|done].
  unfold cleared_timeouts in Hj. destruct (saveTimeout s) as [i|] eqn:Hst.
  - destruct (decide (i = j)) as [->|Hne].
    + rewrite list_lookup_alter_eq in Hj.
      destruct (timeouts s !! j) as [t|]; [|done]. simpl in Hj.
      injection Hj as <-. revert Hx. unfold cancel, is_pending_deferred.
      destruct (status t) eqn:E; simpl; rewrite ?E; by destruct (callback t).
    + rewrite list_lookup_alter_ne in Hj by done.
      assert (Some i = Some j) as [= ->]; [|done].
      apply Hd, indices_from_spec. by exists j, x.
  - assert (@None nat = Some j); [|done].
    apply Hd, indices_from_spec. by exists j, x.
Qed.

Lemma pending_deferred_after_save (s : state) :
  debounced s ->
  pending_deferred (after_save s) = [length (cleared_timeouts s)].
Proof.
  intros Hd. unfold pending_deferred. simpl.
  by rewrite indices_from_app_last, cleared_has_no_pending.
Qed.

End Debounce.

(** X13.  The deferred save is debounced.  If every pending timer of the
    deferred save is the one [saveTimeout] holds, this is still so after
    [saveWithRetry]: a save that can reach the storage clears the old timer
    and leaves exactly one pending, the new one; a save that cannot leaves
    the deferred timers as they were.  At most one is pending after
    either. *)
Theorem saveWithRetry_debounces {host : Host} (s : state) :
  debounced s ->
  exists s',
    saveWithRetry s = Return tt s' /\
    debounced s' /\
    length (pending_deferred s') <= 1 /\
    (storage_allowed s = true ->
     exists h, pending_deferred s' = [h] /\ saveTimeout s' = Some h) /\
    (storage_allowed s = false ->
     pending_deferred s' = pending_deferred s /\
     saveTimeout s' = saveTimeout s).
Proof.
  intros Hd.
  assert (debounced (set_retryCount 0 s)) as Hd0 by done.
  assert (exists s',
            saveWithRetry s = Return tt s' /\
            (storage_allowed s = true ->
             pending_deferred s' = [length (cleared_timeouts s)] /\
             saveTimeout s' = Some (length (cleared_timeouts s))) /\
            (storage_allowed s = false ->
             pending_deferred s' = pending_deferred s /\
             saveTimeout s' = saveTimeout s)) as (s' & Hrun & Hyes & Hno).
  { unfold saveWithRetry, bind, modify.
    set (x := set_retryCount 0 s) in *.
    destruct (storage_allowed s) eqn:Ha.
    - rewrite attemptSave_allowed by done. eexists. split; [done|].
      split; [|done]. intros _. split; [|done].
      apply (pending_deferred_after_save x Hd0).
    - assert (forall t, is_pending_deferred t = false ->
                pending_deferred (set_timeouts (timeouts x ++ [t]) x)
                = pending_deferred s) as Hsame.
      { intros t Ht. unfold pending_deferred. simpl.
        by rewrite indices_from_app_last, Ht, app_nil_r. }
      destruct (decide (retryCount x < maxRetries x)).
      + rewrite attemptSave_denied_retry by done. eexists. split; [done|].
        split; [done|]. intros _. split; [|done]. by apply Hsame.
      + rewrite attemptSave_denied_give_up by done. eexists. split; [done|].
        split; [done|]. intros _. split; [|done]. by apply Hsame. }
  assert (debounced s') as Hd'.
  { unfold debounced. destruct (storage_allowed s) eqn:Ha.
    - destruct (Hyes eq_refl) as [-> ->]. by repeat constructor.
    - destruct (Hno eq_refl) as [-> ->]. exact Hd. }
  exists s'. split_and!; try done.
  - by apply debounced_at_most_one.
  - intros Ha. destruct (Hyes Ha) as [H1 H2]. eauto.
Qed.

(** ** Which keys the clean-up takes *)

Lemma str_le_lt (a b : string) : str_le a b -> a <> b -> str_lt a b.
Proof.
  unfold str_le, str_lt.
  destruct (js_compare a b) eqn:E; try done.
  intros _ Hne. by apply js_compare_eq in E.
Qed.

Lemma str_lt_not_le (a b : string) : str_lt a b -> ~ str_le b a.
Proof.
  unfold str_le, str_lt. rewrite (js_compare_antisym a b).
  intros ->. simpl. auto.
Qed.

Lemma str_lt_irrefl (a : string) : ~ str_lt a a.
Proof. unfold str_lt. by rewrite js_compare_refl. Qed.

Lemma filter_nothing {A} (P : A -> Prop) `{!forall x, Decision (P x)}
    (l : list A) :
  Forall (fun x => ~ P x) l -> filter P l = [].
Proof.
  induction l as [|x l IH]; intros Hall; [done|].
  apply Forall_cons in Hall as [Hx Hall].
  rewrite filter_cons, decide_False by done. by apply IH.
Qed.

(** In a sorted listing without repetition a key is among the first [n]
    exactly when fewer than [n] keys are strictly below it. *)
Lemma take_sorted_rank (l : list string) (key : string) (n : nat) :
  StronglySorted str_le l -> NoDup l -> key ∈ l ->
  (key ∈ take n l <-> length (filter (fun k => str_lt k key) l) < n).
Proof.
  revert n. induction l as [|x l IH]; intros n Hs Hnd Hin.
  { by apply elem_of_nil in Hin. }
  apply StronglySorted_inv in Hs as [Hs Hx].
  apply NoDup_cons in Hnd as [Hxl Hnd].
  rewrite filter_cons. apply elem_of_cons in Hin as [->|Hin].
  - rewrite decide_False by apply str_lt_irrefl.
    assert (filter (fun k => str_lt k x) l = []) as ->.
    { apply filter_nothing. rewrite Forall_forall in Hx |- *.
      intros y Hy Hlt. by apply (str_lt_not_le y x Hlt), Hx. }
    destruct n as [|n]; simpl.
    + split; [by intros H%elem_of_nil|lia].
    + split; [lia|]. intros _. by left.
  - assert (str_lt x key) as Hlt.
    { apply str_le_lt; [|by intros ->].
      rewrite Forall_forall in Hx. by apply Hx. }
    rewrite decide_True by done. destruct n as [|n]; simpl.
    + split; [by intros H%elem_of_nil|lia].
    + rewrite elem_of_cons, (IH n Hs Hnd Hin). split.
      * intros [->|H]; [by destruct Hxl|lia].
      * intros H. right. lia.
Qed.

(** X14.  With more than 10 keys in the application's name space,
    [cleanupStorage] removes a key of the name space exactly when fewer than
    5 keys of the name space sort strictly below it.  Nothing shields the
    two live keys: [workTimesheet_backup] and [workTimesheet_data] go like
    any other key when few keys sort below them. *)
Theorem cleanupStorage_evicts_by_rank
    {host : Host} (s : state) (key : string) :
  storage_allowed s = true ->
  10 < length (namespaced (localStorage s)) ->
  key ∈ namespaced (localStorage s) ->
  exists s',
    cleanupStorage s = Return tt s' /\
    (localStorage s' !! key = None <-> rank key (localStorage s) < 5).
Proof.
  intros Ha Hlen Hin. eexists. split; [by apply cleanupStorage_allowed|].
  simpl. unfold cleaned. rewrite decide_True by done.
  rewrite lookup_remove_keys.
  pose proof (sort_perm (namespaced (localStorage s))) as Hperm.
  assert (key ∈ take 5 (sort (namespaced (localStorage s))) <->
          rank key (localStorage s) < 5) as Hrank.
  { rewrite take_sorted_rank.
    - unfold rank. by rewrite Hperm.
    - apply sort_sorted.
    - rewrite Hperm. apply namespaced_NoDup.
    - by rewrite Hperm. }
  apply namespaced_spec in Hin as [_ [v Hv]].
  destruct (decide (key ∈ take 5 (sort (namespaced (localStorage s)))))
    as [Hin5|Hout].
  - split; [intros _; by apply Hrank|done].
  - rewrite Hv. split; [done|]. intros H. by apply Hrank in H.
Qed.

(** ** Giving up, for any number of retries *)


(** ** Numeric project ids through the form *)

Lemma digit_in_decimal (d : Z) :
  (0 <= d < 10)%Z -> digit_in 10 (digit_char d) = Some d.
Proof.
  intros Hd.
  assert (exists n : nat, d = Z.of_nat n /\ n < 10) as (n & -> & Hn).
  { exists (Z.to_nat d). lia. }
  do 10 (destruct n as [|n]; [reflexivity|]). lia.
Qed.

(** Reading the digits that were written gives the number back. *)
Lemma read_decimal_digits (fuel : nat) :
  forall (n : Z) (acc : string) (a : option Z),
    (0 <= n < 10 ^ Z.of_nat (S fuel))%Z ->
    exists k : Z,
      (0 <= k)%Z /\
      read_digits 10 (decimal_digits (S fuel) n acc) a
      = read_digits 10 acc (Some (default 0 a * 10 ^ k + n))%Z.
Proof.
  induction fuel as [|fuel IH]; intros n acc a Hn.
  - assert ((n <? 10)%Z = true) as Hlt by (apply Z.ltb_lt; simpl in Hn; lia).
    exists 1%Z. split; [lia|]. simpl. rewrite Hlt. simpl.
    rewrite digit_in_decimal by (simpl in Hn; lia).
    by rewrite Z.pow_1_r.
  - change (decimal_digits (S (S fuel)) n acc)
      with (if (n <? 10)%Z then String (digit_char n) acc
            else decimal_digits (S fuel) (n / 10)%Z
                   (String (digit_char (n mod 10)) acc)).
    destruct (Z.ltb_spec n 10) as [Hlt|Hge].
    + exists 1%Z. split; [lia|]. simpl. rewrite digit_in_decimal by lia.
      by rewrite Z.pow_1_r.
    + destruct (IH (n / 10)%Z (String (digit_char (n mod 10)) acc) a)
        as (k & Hk & Hread).
      { rewrite Nat2Z.inj_succ, Z.pow_succ_r in Hn by lia. split.
        - apply Z.div_pos; lia.
        - apply Z.div_lt_upper_bound; lia. }
      exists (k + 1)%Z. split; [lia|]. rewrite Hread. simpl.
      rewrite digit_in_decimal by (apply Z.mod_pos_bound; lia).
      do 2 f_equal. rewrite Z.pow_add_r, Z.pow_1_r by lia.
      pose proof (Z.div_mod n 10). lia.
Qed.

Lemma decimal_digits_head (fuel : nat) :
  forall (n : Z) (acc : string),
    (0 < n < 10 ^ Z.of_nat (S fuel))%Z ->
    exists d rest,
      decimal_digits (S fuel) n acc = String (digit_char d) rest /\
      (1 <= d < 10)%Z.
Proof.
  induction fuel as [|fuel IH]; intros n acc Hn.
  - assert ((n <? 10)%Z = true) as Hlt by (apply Z.ltb_lt; simpl in Hn; lia).
    simpl. rewrite Hlt. exists n, acc. split; [done|]. simpl in Hn. lia.
  - change (decimal_digits (S (S fuel)) n acc)
      with (if (n <? 10)%Z then String (digit_char n) acc
            else decimal_digits (S fuel) (n / 10)%Z
                   (String (digit_char (n mod 10)) acc)).
    destruct (Z.ltb_spec n 10) as [Hlt|Hge].
    + exists n, acc. split; [done|]. lia.
    + apply IH. split.
      * apply Z.div_str_pos; lia.
      * rewrite Nat2Z.inj_succ, Z.pow_succ_r in Hn by lia.
        apply Z.div_lt_upper_bound; lia.
Qed.

Lemma enough_fuel (a : Z) :
  (0 < a)%Z -> (a < 10 ^ Z.of_nat (S (Z.to_nat (Z.log2 a))))%Z.
Proof.
  intros Ha. pose proof (Z.log2_nonneg a).
  rewrite Nat2Z.inj_succ, Z2Nat.id by done.
  destruct (Z.log2_spec a Ha) as [_ Hup].
  eapply Z.lt_le_trans; [exact Hup|].
  apply Z.pow_le_mono_l. lia.
Qed.

Lemma parseInt_digit_first (d : Z) (rest : string) :
  (1 <= d < 10)%Z ->
  parseInt (String (digit_char d) rest)
  = match read_digits 10 (String (digit_char d) rest) None with
    | None => PrimFloat.nan
    | Some 0%Z => PrimFloat.zero
    | Some z => number_of_Z z
    end /\
  parseInt (String "-" (String (digit_char d) rest))
  = match read_digits 10 (String (digit_char d) rest) None with
    | None => PrimFloat.nan
    | Some 0%Z => PrimFloat.neg_zero
    | Some z => number_of_Z (- z)
    end.
Proof.
  intros Hd.
  assert (exists n : nat, d = (Z.of_nat n + 1)%Z /\ n < 9) as (n & -> & Hn).
  { exists (Z.to_nat (d - 1)). lia. }
  do 9 (destruct n as [|n]; [split; reflexivity|]). lia.
Qed.

(** The digits written for an integer are read back as that integer. *)
Lemma parseInt_integer_toString (z : Z) :
  parseInt (integer_toString z) = number_of_Z z.
Proof.
  unfold integer_toString.
  destruct (Z.ltb_spec z 0) as [Hneg|Hpos].
  - assert (0 < Z.abs z)%Z as Ha by lia.
    destruct (decimal_digits_head _ (Z.abs z) "" (conj Ha (enough_fuel _ Ha)))
      as (d & rest & Heq & Hd).
    destruct (read_decimal_digits _ (Z.abs z) "" None
                (conj (Z.lt_le_incl _ _ Ha) (enough_fuel _ Ha)))
      as (k & Hk & Hread).
    rewrite Heq in Hread |- *.
    destruct (parseInt_digit_first d rest Hd) as [_ ->]. rewrite Hread.
    simpl. rewrite Z.abs_neq by lia.
    destruct z as [|p|p]; try lia. simpl. reflexivity.
  - destruct (Z.eq_dec z 0%Z) as [->|Hne]; [vm_compute; reflexivity|].
    assert (0 < Z.abs z)%Z as Ha by lia.
    destruct (decimal_digits_head _ (Z.abs z) "" (conj Ha (enough_fuel _ Ha)))
      as (d & rest & Heq & Hd).
    destruct (read_decimal_digits _ (Z.abs z) "" None
                (conj (Z.lt_le_incl _ _ Ha) (enough_fuel _ Ha)))
      as (k & Hk & Hread).
    rewrite Heq in Hread |- *.
    destruct (parseInt_digit_first d rest Hd) as [-> _]. rewrite Hread.
    simpl. rewrite Z.abs_eq by lia.
    destruct z as [|p|p]; try lia. reflexivity.
Qed.

(** X23.  A numeric project id goes through the form unchanged.  The select
    holds the text of the id ([option.value = project.id]); for a safe
    integer, on collections that the page can draw, [addEntry] reads it
    back as the Number it came from, and for the four built-in projects the
    lookup of [renderCalendar] then finds the project the entry was added
    for. *)
Theorem addEntry_keeps_numeric_projectId
    {host : Host} {page : Page} (s : state) (date hours : string)
    (es : list value) (z : Z) :
  entries s = Arr es ->
  renderable s = true ->
  (Z.abs z <= 2 ^ 53)%Z ->
  exists s' entryId entry,
    addEntry date (integer_toString z) hours s = Return entryId s' /\
    entries s' = Arr (es ++ [entry]) /\
    get_prop entry "projectId" = inr (Num (number_of_Z z)) /\
    (projects s = default_projects -> (1 <= z <= 4)%Z ->
     exists project,
       project_of s' entry = inr project /\
       truthy project = true /\
       get_prop project "id" = inr (Num (number_of_Z z))).
Proof.
  intros He Hr _.
  destruct (addEntry_eq date (integer_toString z) hours s es He Hr)
    as (s' & Hrun & He' & Hp' & _).
  rewrite parseInt_integer_toString in He'.
  eexists s', _, _. split; [exact Hrun|]. split; [exact He'|].
  split; [reflexivity|].
  intros Hp Hz. unfold project_of. rewrite Hp', Hp.
  assert (z = 1 \/ z = 2 \/ z = 3 \/ z = 4)%Z as [-> | [-> | [-> | ->]]] by lia;
    eexists; (split; [vm_compute; reflexivity|]); split; reflexivity.
Qed.

(** ** Collections that the page cannot draw *)

Lemma on_date_error (date : string) (es : list value) (e : exn) :
  on_date date es = inl e -> e = TypeError.
Proof.
  revert e. induction es as [|h es IH]; intros e; simpl; [done|].
  destruct (get_prop h "date") as [e'|d] eqn:E; simpl.
  { intros [= <-]. by apply get_prop_error in E. }
  destruct (on_date date es) as [e'|day]; simpl; [|done].
  intros [= <-]. by apply IH.
Qed.

Lemma on_date_keeps (date : string) (es : list value) (entry : value) :
  forall day,
    on_date date es = inr day -> entry ∈ es -> date_is date entry = true ->
    entry ∈ day.
Proof.
  induction es as [|h es IH]; intros day; simpl.
  { intros _ Hin. by apply elem_of_nil in Hin. }
  destruct (get_prop h "date") as [e'|d] eqn:E; simpl; [done|].
  destruct (on_date date es) as [e'|day']; simpl; [done|].
  intros [= <-] Hin Hd. apply elem_of_cons in Hin as [->|Hin].
  - unfold date_is in Hd. rewrite E in Hd. rewrite Hd. by left.
  - specialize (IH day' eq_refl Hin Hd).
    destruct (strict_eq d (Str date)); [by right|done].
Qed.

Lemma on_date_nullish (date : string) (es : list value) (entry : value) :
  entry ∈ es -> nullish entry = true -> on_date date es = inl TypeError.
Proof.
  intros Hin Hn. induction es as [|h es IH]; [by apply elem_of_nil in Hin|].
  simpl. destruct (get_prop h "date") as [e'|d] eqn:E; simpl.
  { by apply get_prop_error in E as ->. }
  apply elem_of_cons in Hin as [->|Hin].
  - by destruct h.
  - by rewrite (IH Hin).
Qed.

Lemma to_primitive_error (v : value) (e : exn) :
  to_primitive v = inl e -> e = TypeError.
Proof. unfold to_primitive. destruct (stringifies v); congruence. Qed.

Lemma write_project_error (p : value) (e : exn) :
  write_project p = inl e -> e = TypeError.
Proof.
  unfold write_project.
  destruct (get_prop p "color") as [e'|c] eqn:E1; simpl.
  { intros [= <-]. by apply get_prop_error in E1. }
  destruct (to_primitive c) as [e'|[]] eqn:E2; simpl.
  { intros [= <-]. by apply to_primitive_error in E2. }
  destruct (get_prop p "name") as [e'|n] eqn:E3; simpl.
  { intros [= <-]. by apply get_prop_error in E3. }
  apply to_primitive_error.
Qed.

Lemma render_entries_error (s : state) (day : list value) (e : exn) :
  render_entries s day = inl e -> e = TypeError.
Proof.
  revert e. induction day as [|h day IH]; intros e; simpl; [done|].
  destruct (project_of s h) as [e'|p] eqn:E1; simpl.
  { intros [= <-]. by apply project_of_error in E1. }
  destruct (truthy p); simpl; [|apply IH].
  destruct (write_project p) as [e'|[]] eqn:E2; simpl.
  { intros [= <-]. by apply write_project_error in E2. }
  destruct (get_prop h "hours") as [e'|hours] eqn:E3; simpl.
  { intros [= <-]. by apply get_prop_error in E3. }
  destruct (to_primitive hours) as [e'|[]] eqn:E4; simpl; [|apply IH].
  intros [= <-]. by apply to_primitive_error in E4.
Qed.

Definition not_array (v : value) : Prop := forall items, v <> Arr items.

(** With [projects] no array, the first entry of a day stops the loop. *)
Lemma render_entries_no_projects (s : state) (day : list value) :
  not_array (projects s) -> day <> [] -> render_entries s day = inl TypeError.
Proof.
  intros Hp Hday. destruct day as [|h day]; [done|]. simpl.
  unfold project_of.
  destruct (projects s) as [| | | | |ps| |]; try done;
    try (by destruct (get_prop h "projectId")).
  by destruct (Hp ps).
Qed.

Lemma render_days_raises (s : state) (dates : list string) (date : string) :
  date ∈ dates ->
  (forall day, day_entries s date = inr day ->
               render_entries s day = inl TypeError) ->
  render_days s dates = inl TypeError.
Proof.
  intros Hin Hday. induction dates as [|d dates IH]; [by apply elem_of_nil in Hin|].
  simpl. destruct (day_entries s d) as [e|day] eqn:E1; simpl.
  { unfold day_entries in E1. destruct (entries s); try (by injection E1 as <-).
    by apply on_date_error in E1 as ->. }
  destruct (render_entries s day) as [e|[]] eqn:E2; simpl.
  { by apply render_entries_error in E2 as ->. }
  apply elem_of_cons in Hin as [->|Hin]; [|by apply IH].
  rewrite (Hday day E1) in E2. done.
Qed.

Section Undrawable.
Context {host : Host} {page : Page}.

Lemma stats_filter_nullish (s : state) (es : list value) (entry : value) :
  entry ∈ es -> nullish entry = true -> stats_filter s es = inl TypeError.
Proof.
  intros Hin Hn. induction es as [|h es IH]; [by apply elem_of_nil in Hin|].
  simpl. destruct (get_prop h "date") as [e'|d] eqn:E; simpl.
  { by apply get_prop_error in E as ->. }
  destruct (to_primitive d) as [e'|[]] eqn:E2; simpl.
  { by apply to_primitive_error in E2 as ->. }
  apply elem_of_cons in Hin as [->|Hin].
  - by destruct h.
  - by rewrite (IH Hin).
Qed.

(** X24.  [addEntry] draws the page before it saves.  When [projects] is
    no array and the day of the entry is in the month shown,
    [renderCalendar] raises a [TypeError]: the entry is in [entries], no id
    is returned, and no save was attempted (the store and the timers are as
    they were). *)
Theorem addEntry_raises_before_saving
    (s : state) (date projectId hours : string) (es : list value) :
  entries s = Arr es ->
  not_array (projects s) ->
  (forall s', date ∈ month_dates s') ->
  exists s1 entry,
    addEntry date projectId hours s = Throw TypeError s1 /\
    entries s1 = Arr (es ++ [entry]) /\
    get_prop entry "projectId" = inr (Num (parseInt projectId)) /\
    localStorage s1 = localStorage s /\
    timeouts s1 = timeouts s /\
    messages s1 = messages s.
Proof.
  intros He Hp Hshown.
  unfold addEntry, generateId, now_iso, bind at 1 2 3 4 5 6, gets, modify, ret.
  simpl. rewrite He. simpl.
  match goal with |- context [bind renderCalendar _ ?x] => set (s1 := x) end.
  assert (renderCalendar s1 = Throw TypeError s1) as Hr.
  { unfold renderCalendar, bind, gets.
    rewrite (render_days_raises s1 _ date (Hshown s1)); [done|].
    intros day Hday. apply render_entries_no_projects; [exact Hp|].
    unfold day_entries in Hday. simpl in Hday.
    assert (forall entry, entry ∈ day -> day <> []) as Hne
      by (intros entry Hin ->; by apply elem_of_nil in Hin).
    eapply Hne, (on_date_keeps date _ _ day Hday).
    - apply elem_of_app. right. by apply list_elem_of_singleton.
    - unfold date_is. simpl. by rewrite String.eqb_refl. }
  unfold bind. rewrite Hr.
  eexists s1, _. split; [reflexivity|]. by split_and!.
Qed.

(** X25.  [deleteEntry] saves before it draws the page.  When [projects] is
    no array and an entry that stays is on a day of the month shown, the
    entries are filtered and the save is attempted as on any page, and then
    [renderCalendar] raises a [TypeError]. *)
Theorem deleteEntry_saves_then_raises
    (s : state) (entryId date : string) (es : list value) (entry : value) :
  entries s = Arr es ->
  Forall is_object es ->
  not_array (projects s) ->
  entry ∈ es ->
  id_is entryId entry = false ->
  date_is date entry = true ->
  (forall s', date ∈ month_dates s') ->
  exists s',
    saveWithRetry
      (set_entries (Arr (filter (fun e => id_is entryId e = false) es)) s)
    = Return tt s' /\
    deleteEntry entryId s = Throw TypeError s' /\
    entries s' = Arr (filter (fun e => id_is entryId e = false) es).
Proof.
  intros He Hobj Hp Hin Hid Hd Hshown.
  unfold deleteEntry, bind at 1, gets at 1. rewrite He.
  unfold bind at 1. rewrite (without_id_filter entryId es Hobj). simpl.
  unfold bind at 1, modify at 1.
  match goal with |- context [bind saveWithRetry _ ?x] => set (s1 := x) end.
  destruct (saveWithRetry_returns s1) as (s' & Hrun & Hp' & He').
  exists s'. split; [exact Hrun|]. split; [|exact He'].
  unfold bind at 1. rewrite Hrun.
  assert (renderCalendar s' = Throw TypeError s') as Hr.
  { unfold renderCalendar, bind, gets.
    rewrite (render_days_raises s' _ date (Hshown s')); [done|].
    intros day Hday. apply render_entries_no_projects.
    - rewrite Hp'. exact Hp.
    - unfold day_entries in Hday. rewrite He' in Hday. simpl in Hday.
      assert (forall x, x ∈ day -> day <> []) as Hne
        by (intros x Hx ->; by apply elem_of_nil in Hx).
      eapply Hne, (on_date_keeps date _ entry day Hday); [|exact Hd].
      apply list_elem_of_filter. by split. }
  unfold bind. by rewrite Hr.
Qed.

(** X26.  [addProject] saves before it draws the calendar.  When [entries]
    is no array and the month shown has a day, the project is appended and
    the save is attempted as on any page, and then [renderCalendar] raises a
    [TypeError]. *)
Theorem addProject_saves_then_raises
    (s : state) (name color : string) (ps : list value) :
  projects s = Arr ps ->
  not_array (entries s) ->
  (forall s', month_dates s' <> []) ->
  let project :=
    Obj [("id", Str (make_id (Date_now (ticks s))
                       (Math_random_digits (ticks s))));
         ("name", Str name); ("color", Str color)] in
  exists s',
    saveWithRetry
      (set_projects (Arr (ps ++ [project])) (set_ticks (S (ticks s)) s))
    = Return tt s' /\
    addProject name color s = Throw TypeError s' /\
    projects s' = Arr (ps ++ [project]).
Proof.
  intros Hp He Hshown project.
  unfold addProject, generateId, bind at 1 2 3 4, gets, modify, ret. simpl.
  rewrite Hp. simpl.
  match goal with |- context [bind saveWithRetry _ ?x] => set (s1 := x) end.
  destruct (saveWithRetry_returns s1) as (s' & Hrun & Hp' & He').
  exists s'. split; [exact Hrun|]. split; [|exact Hp'].
  unfold bind at 1. rewrite Hrun.
  unfold renderCalendar, bind, gets.
  destruct (month_dates s') as [|d dates] eqn:Hd; [by destruct (Hshown s')|].
  simpl. unfold day_entries.
  assert (not_array (entries s')) as He2 by (rewrite He'; exact He).
  destruct (entries s') as [| | | | |items| |]; try done.
  by destruct (He2 items).
Qed.

(** X27.  An entry that is [null] or [undefined] stops both renderings:
    [updateStats] raises a [TypeError] whatever the period, and
    [renderCalendar] does as soon as the month shown has a day. *)
Theorem null_entry_stops_rendering
    (s : state) (es : list value) (entry : value) :
  entries s = Arr es ->
  entry ∈ es ->
  nullish entry = true ->
  updateStats s = Throw TypeError s /\
  (month_dates s <> [] -> renderCalendar s = Throw TypeError s).
Proof.
  intros He Hin Hn. split.
  - unfold updateStats, bind at 1, gets at 1. rewrite He.
    unfold bind at 1. by rewrite (stats_filter_nullish s es entry).
  - intros Hd. unfold renderCalendar, bind, gets.
    destruct (month_dates s) as [|d dates]; [done|].
    simpl. unfold day_entries. rewrite He.
    by rewrite (on_date_nullish d es entry).
Qed.

End Undrawable.

(** ** The rest of the code on the example pages *)

Lemma migrateOldData_idempotent_witness :
  exists s1,
    migrateOldData (host := office_host) legacy_page = Return tt s1 /\
    migrateOldData (host := office_host) s1 = Return tt s1.
Proof.
  destruct (migrateOldData_idempotent (host := office_host) legacy_page
              [legacy_entry; stored_entry])
    as (s1 & es1 & H1 & _ & _ & _ & H2).
  - reflexivity.
  - repeat constructor.
  - exists s1. split; [exact H1|exact H2].
Defined.

Lemma loadData_raises_on_odd_entries_witness :
  loadData (host := odd_host) odd_page
  = Throw TypeError (set_entries (Num 5) (set_projects (Arr []) odd_page)).
Proof.
  apply (loadData_raises_on_odd_entries (host := odd_host) odd_page "<odd>"
           [("projects", Arr []); ("entries", Num 5)] (Num 5)).
  - reflexivity.
  - vm_compute. reflexivity.
  - vm_compute. reflexivity.
  - reflexivity.
  - vm_compute. reflexivity.
  - intros items. discriminate.
Defined.

Lemma loadData_seeds_defaults_witness :
  exists s',
    loadData (host := office_host) fresh_page = Return tt s' /\
    projects s' = default_projects /\
    entries s' = Arr [].
Proof.
  destruct (loadData_seeds_defaults (host := office_host) fresh_page)
    as (s' & Hrun & Hp & He & _).
  - right. split; vm_compute; reflexivity.
  - exists s'. split; [exact Hrun|]. split; [exact Hp|exact He].
Defined.

Lemma loadData_primary_wins_witness :
  exists s',
    loadData (host := office_host) primary_page = Return tt s' /\
    projects s' = Arr [stored_project] /\
    localStorage s' = localStorage primary_page.
Proof.
  destruct (loadData_primary_wins (host := office_host) primary_page
              "<backup>"
              [("projects", Arr [stored_project]);
               ("entries", Arr [stored_entry]);
               ("lastSaved", Str "2026-01-14T17:05:12.440Z")]
              [stored_project] [stored_entry])
    as (s' & es' & Hrun & Hp & _ & _ & Hl & _).
  - reflexivity.
  - vm_compute. reflexivity.
  - vm_compute. reflexivity.
  - reflexivity.
  - reflexivity.
  - repeat constructor.
  - exists s'. split; [exact Hrun|]. split; [exact Hp|exact Hl].
Defined.

Lemma save_then_load_round_trip_witness :
  exists s1 s2,
    saveData (host := echo_host) saved_page = Return tt s1 /\
    loadData (host := echo_host) s1 = Return tt s2 /\
    projects s2 = projects saved_page /\
    entries s2 = entries saved_page.
Proof.
  destruct (save_then_load_round_trip (host := echo_host) saved_page
              [stored_project] [stored_entry])
    as (s1 & s2 & H1 & H2 & Hp & He & _).
  - vm_compute. reflexivity.
  - vm_compute. reflexivity.
  - reflexivity.
  - reflexivity.
  - constructor; [|constructor]. eexists. split; reflexivity.
  - exists s1, s2. split; [exact H1|]. split; [exact H2|].
    split; [exact Hp|exact He].
Defined.

Lemma deleteEntry_removes_matching_witness :
  exists s',
    deleteEntry (host := office_host) (page := january_page)
      "m2xk41a7c0" working_page = Return tt s' /\
    entries s' = Arr [numbered_entry; orphan_entry].
Proof.
  destruct (deleteEntry_removes_matching (host := office_host)
              (page := january_page) working_page
              "m2xk41a7c0" [stored_entry; numbered_entry; orphan_entry])
    as (s' & Hrun & He & _).
  - reflexivity.
  - reflexivity.
  - exists s'. split; [exact Hrun|exact He].
Defined.

Lemma deleteEntry_keeps_other_types_witness :
  exists s' kept,
    deleteEntry (host := office_host) (page := january_page)
      "17" working_page = Return tt s' /\
    entries s' = Arr kept /\
    numbered_entry ∈ kept.
Proof.
  apply (deleteEntry_keeps_other_types (host := office_host)
           (page := january_page) working_page
           "17" [stored_entry; numbered_entry; orphan_entry] numbered_entry).
  - reflexivity.
  - reflexivity.
  - right. left.
  - intros text H. vm_compute in H. discriminate H.
Defined.

Lemma addEntry_then_deleteEntry_witness :
  exists entryId s1 s2,
    addEntry (host := office_host) (page := january_page)
      "2026-01-15" "2" "8" working_page
    = Return entryId s1 /\
    deleteEntry (host := office_host) (page := january_page) entryId s1
    = Return tt s2 /\
    entries s2 = Arr [stored_entry; numbered_entry; orphan_entry].
Proof.
  apply (addEntry_then_deleteEntry (host := office_host)
           (page := january_page) working_page
           "2026-01-15" "2" "8" [stored_entry; numbered_entry; orphan_entry]).
  - reflexivity.
  - reflexivity.
  - repeat (constructor; [vm_compute; reflexivity|]). constructor.
Defined.

Lemma offline_entry_stays_unsynced_witness :
  exists s1 entryId s2 entry,
    on_offline fresh_page = Return tt s1 /\
    addEntry (host := office_host) (page := january_page)
      "2026-01-15" "2" "8" s1
    = Return entryId s2 /\
    entries s2 = Arr [entry] /\
    get_prop entry "synced" = inr (Bool false).
Proof.
  destruct (offline_entry_stays_unsynced (host := office_host)
              (page := january_page) fresh_page "2026-01-15" "2" "8" [])
    as (s1 & entryId & s2 & entry & _ & H1 & H2 & H3 & H4 & _).
  - reflexivity.
  - reflexivity.
  - exists s1, entryId, s2, entry.
    split; [exact H1|]. split; [exact H2|]. split; [exact H3|exact H4].
Defined.

Lemma changeMonth_steps_witness :
  month_index (changeMonth 1 (Calendar 11 2025))
  = (month_index (Calendar 11 2025) + 1)%Z /\
  changeMonth (-1) (changeMonth 1 (Calendar 11 2025)) = Calendar 11 2025.
Proof.
  destruct (changeMonth_steps (Calendar 11 2025) 1) as (_ & H1 & H2).
  - simpl. lia.
  - left. reflexivity.
  - split; [exact H1|exact H2].
Defined.


Lemma submit_for_new_project_raises_witness :
  exists s1 s2,
    addProject (host := office_host) (page := january_page)
      "Отпуск" "#8b5cf6" (seeded fresh_page)
    = Return tt s1 /\
    on_submit_entry (host := office_host) (page := january_page) "2026-01-15"
      (option_value "mkf7y5c0k3f9x2") "8" s1
    = Throw TypeError s2.
Proof.
  destruct (submit_for_new_project_raises (host := office_host)
              (page := january_page)
              (seeded fresh_page) "Отпуск" "#8b5cf6" "2026-01-15" "8"
              [Obj [("id", Num 1); ("name", Str "Разработка"); ("color", Str "#3b82f6")];
               Obj [("id", Num 2); ("name", Str "Тестирование"); ("color", Str "#ef4444")];
               Obj [("id", Num 3); ("name", Str "Дизайн"); ("color", Str "#10b981")];
               Obj [("id", Num 4); ("name", Str "Встречи"); ("color", Str "#f59e0b")]]
              [])
    as (s1 & s2 & entry & H1 & H2 & _).
  - reflexivity.
  - reflexivity.
  - reflexivity.
  - discriminate.
  - simpl. lia.
  - exists s1, s2. split; [exact H1|exact H2].
Defined.

Lemma saveWithRetry_debounces_witness :
  exists s' h,
    saveWithRetry (host := office_host) edited_page = Return tt s' /\
    pending_deferred s' = [h] /\
    saveTimeout s' = Some h.
Proof.
  destruct (saveWithRetry_debounces (host := office_host) edited_page)
    as (s' & Hrun & _ & _ & Hsave & _).
  - unfold debounced. vm_compute. repeat constructor.
  - destruct (Hsave eq_refl) as (h & Hp & Ht).
    exists s', h. split; [exact Hrun|]. split; [exact Hp|exact Ht].
Defined.

Lemma cleanupStorage_evicts_by_rank_witness :
  exists s',
    cleanupStorage settings_page = Return tt s' /\
    localStorage s' !! PRIMARY = None.
Proof.
  destruct (cleanupStorage_evicts_by_rank (host := office_host) settings_page
              PRIMARY) as (s' & Hrun & Hiff).
  - reflexivity.
  - vm_compute. lia.
  - apply namespaced_spec. split; [reflexivity|].
    exists "<snapshot>". vm_compute. reflexivity.
  - exists s'. split; [exact Hrun|]. apply Hiff. vm_compute. lia.
Defined.


Lemma addEntry_keeps_numeric_projectId_witness :
  exists s' entryId entry project,
    addEntry (host := office_host) (page := january_page)
      "2026-01-15" (integer_toString 4) "8" (seeded fresh_page)
    = Return entryId s' /\
    project_of s' entry = inr project /\
    get_prop project "id" = inr (Num (number_of_Z 4)).
Proof.
  destruct (addEntry_keeps_numeric_projectId (host := office_host)
              (page := january_page) (seeded fresh_page) "2026-01-15" "8" [] 4)
    as (s' & entryId & entry & Hrun & _ & _ & Hfound).
  - reflexivity.
  - reflexivity.
  - simpl. lia.
  - destruct (Hfound eq_refl ltac:(lia)) as (project & Hp & _ & Hid).
    exists s', entryId, entry, project.
    split; [exact Hrun|]. split; [exact Hp|exact Hid].
Defined.

(** A project whose colour is an object with an own [toString] cannot be
    written into the page: [addEntry] for it raises before it saves, while
    an own [valueOf] does no harm. *)
Lemma unconvertible_colour_stops_addEntry :
  let project (colour : value) :=
    Obj [("id", Num 2); ("name", Str "x"); ("color", colour)] in
  let page_with (colour : value) :=
    set_projects (Arr [project colour]) fresh_page in
  throws (addEntry (host := office_host) (page := january_page)
            "2026-01-15" "2" "8"
            (page_with (Obj [("toString", Num 1)]))) = true /\
  returns (addEntry (host := office_host) (page := january_page)
             "2026-01-15" "2" "8"
             (page_with (Obj [("valueOf", Num 1)]))) = true.
Proof. vm_compute. by split. Qed.

Lemma january_shows_the_15th (s : state) :
  "2026-01-15" ∈ month_dates (Page := january_page) s.
Proof. do 14 right. left. Qed.

Lemma january_shows_the_14th (s : state) :
  "2026-01-14" ∈ month_dates (Page := january_page) s.
Proof. do 13 right. left. Qed.

Lemma addEntry_raises_before_saving_witness :
  exists s1,
    addEntry (host := office_host) (page := january_page)
      "2026-01-15" "2" "8" no_projects_page
    = Throw TypeError s1 /\
    localStorage s1 = localStorage no_projects_page.
Proof.
  destruct (addEntry_raises_before_saving (host := office_host)
              (page := january_page) no_projects_page "2026-01-15" "2" "8"
              [stored_entry; numbered_entry; orphan_entry])
    as (s1 & entry & Hrun & _ & _ & Hl & _).
  - reflexivity.
  - intros items. discriminate.
  - exact january_shows_the_15th.
  - exists s1. split; [exact Hrun|exact Hl].
Defined.

Lemma deleteEntry_saves_then_raises_witness :
  exists s',
    deleteEntry (host := office_host) (page := january_page)
      "m2xk41a7c0" no_projects_page
    = Throw TypeError s' /\
    entries s' = Arr [numbered_entry; orphan_entry].
Proof.
  destruct (deleteEntry_saves_then_raises (host := office_host)
              (page := january_page) no_projects_page "m2xk41a7c0"
              "2026-01-14" [stored_entry; numbered_entry; orphan_entry]
              numbered_entry)
    as (s' & _ & Hrun & He).
  - reflexivity.
  - repeat constructor.
  - intros items. discriminate.
  - right. left.
  - reflexivity.
  - vm_compute. reflexivity.
  - exact january_shows_the_14th.
  - exists s'. split; [exact Hrun|exact He].
Defined.

Lemma addProject_saves_then_raises_witness :
  exists s',
    addProject (host := office_host) (page := january_page)
      "Отпуск" "#8b5cf6" no_entries_page
    = Throw TypeError s' /\
    localStorage s' !! PRIMARY = Some "<snapshot>".
Proof.
  destruct (addProject_saves_then_raises (host := office_host)
              (page := january_page) no_entries_page "Отпуск" "#8b5cf6"
              [Obj [("id", Num 1); ("name", Str "Разработка"); ("color", Str "#3b82f6")];
               Obj [("id", Num 2); ("name", Str "Тестирование"); ("color", Str "#ef4444")];
               Obj [("id", Num 3); ("name", Str "Дизайн"); ("color", Str "#10b981")];
               Obj [("id", Num 4); ("name", Str "Встречи"); ("color", Str "#f59e0b")]])
    as (s' & Hsave & Hrun & _).
  - reflexivity.
  - intros items. discriminate.
  - intros s'. discriminate.
  - exists s'. split; [exact Hrun|].
    apply (f_equal final_state) in Hsave. simpl in Hsave. rewrite <- Hsave.
    vm_compute. reflexivity.
Defined.

Lemma null_entry_stops_rendering_witness :
  updateStats (page := january_page) null_entry_page
  = Throw TypeError null_entry_page /\
  renderCalendar (page := january_page) null_entry_page
  = Throw TypeError null_entry_page.
Proof.
  destruct (null_entry_stops_rendering (page := january_page) null_entry_page
              [stored_entry; Null] Null) as [H1 H2].
  - reflexivity.
  - right. left.
  - reflexivity.
  - split; [exact H1|]. apply H2. discriminate.
Defined.
